(** * The Sparkify data-lake ETL (etl.py), embedded and verified

    The job reads two collections of JSON documents (song catalog, user
    activity log), derives five tables and writes them out as parquet.
    DataFrames are lists of rows, one record type per schema; a column is
    nullable exactly where its type is an [option].  Storage is a finite map
    from paths to tables, threaded through a small state-and-error monad
    that also records the order of reads and writes.

    The embedding follows each statement of etl.py as it is laid out.  One
    statement is not read by Python the way it is laid out, the last one of
    process_log_data, which builds songplays_table: see
    [songplays_statement]. *)

From stdpp Require Import gmap strings list fin_maps sorting.
From Stdlib Require Import ZArith Ascii.

(** ** Column values *)

(** An IEEE-754 binary64 column value, given by its 64-bit pattern.  The job
    never does arithmetic on doubles: it copies them from column to column
    and compares them (in [distinct] and in the join), so a value is taken
    up to the engine's normal form for keys. *)
Record double := Double { double_bits : Z }.

#[global] Instance double_eq_dec : EqDecision double.
Proof. solve_decision. Defined.

(** ** Input documents

    The schema is the list of columns the job selects; a field that a
    document leaves out reads as NULL ([None]). *)

Module SongData.
Record t := mk {
  song_id : option string;
  title : option string;
  artist_id : option string;
  year : option Z;
  duration : option double;
  artist_name : option string;
  artist_location : option string;
  artist_latitude : option double;
  artist_longitude : option double
}.
End SongData.

Module LogData.
Record t := mk {
  userId : option string;
  firstName : option string;
  lastName : option string;
  gender : option string;
  level : option string;
  page : option string;
  ts : option Z;
  song : option string;
  artist : option string;
  length : option double;
  sessionId : option Z;
  location : option string;
  userAgent : option string
}.
End LogData.

(** ** Output tables *)

Module Songs.
Record t := mk {
  song_id : option string;
  title : option string;
  artist_id : option string;
  year : option Z;
  duration : option double
}.
End Songs.

Module Artists.
Record t := mk {
  artist_id : option string;
  name : option string;
  location : option string;
  latitude : option double;
  longitude : option double
}.
End Artists.

Module Users.
Record t := mk {
  user_id : option string;
  first_name : option string;
  last_name : option string;
  gender : option string;
  level : option string
}.
End Users.

Module Time.
Record t := mk {
  start_time : Z;
  hour : Z;
  day : Z;
  week : Z;
  month : Z;
  year : Z;
  weekday : string
}.
End Time.

Module Songplays.
Record t := mk {
  start_time : Z;
  user_id : option string;
  level : option string;
  song_id : option string;
  artist_id : option string;
  session_id : option Z;
  location : option string;
  user_agent : option string;
  month : Z;
  year : Z;
  songplays_id : Z
}.
End Songplays.

(** ** Intermediate DataFrames of process_log_data *)

(** A row of [df] after the two [withColumn] calls: the log document, its
    [ts] column overwritten by the seconds value, and the new [datetime]
    column (an instant, in seconds since the epoch). *)
Module Event.
Record t := mk {
  log : LogData.t;
  ts : Z;
  datetime : Z
}.
End Event.

(** A row of [song_df] after its join with the artists: the columns of
    songs plus [artist_name]. *)
Module SongArtist.
Record t := mk {
  artist_id : option string;
  song_id : option string;
  title : option string;
  year : option Z;
  duration : option double;
  artist_name : option string
}.
End SongArtist.

#[global] Instance SongData_eq_dec : EqDecision SongData.t.
Proof. solve_decision. Defined.
#[global] Instance LogData_eq_dec : EqDecision LogData.t.
Proof. solve_decision. Defined.
#[global] Instance Songs_eq_dec : EqDecision Songs.t.
Proof. solve_decision. Defined.
#[global] Instance Artists_eq_dec : EqDecision Artists.t.
Proof. solve_decision. Defined.
#[global] Instance Users_eq_dec : EqDecision Users.t.
Proof. solve_decision. Defined.
#[global] Instance Time_eq_dec : EqDecision Time.t.
Proof. solve_decision. Defined.
#[global] Instance Songplays_eq_dec : EqDecision Songplays.t.
Proof. solve_decision. Defined.

(** ** DataFrame operations *)

(** [a == b] on two columns: NULL compares equal to nothing, strings and
    numbers compare exactly. *)
Definition sql_eqb {A} `{EqDecision A} (a b : option A) : bool :=
  match a, b with
  | Some x, Some y => bool_decide (x = y)
  | _, _ => false
  end.

(** [DataFrame.distinct()]: one row per class of fully identical rows. *)
Definition distinct {A} `{EqDecision A} (df : list A) : list A :=
  remove_dups df.

(** ** Calendar fields of a timestamp

    The engine's [hour], [dayofmonth], [weekofyear], [month], [year] and
    [date_format(_, 'E')] on the wall-clock reading [w] of an instant, in
    seconds (proleptic Gregorian calendar, ISO-8601 weeks). *)

Section calendar.
Local Open Scope Z_scope.

Definition days_of (w : Z) : Z := w `div` 86400.
Definition hour_of (w : Z) : Z := (w `mod` 86400) `div` 3600.

(** Year, month, day of the [z]-th day after 1970-01-01. *)
Definition civil_from_days (z : Z) : Z * Z * Z :=
  let z := z + 719468 in
  let era := z `div` 146097 in
  let doe := z - era * 146097 in
  let yoe := (doe - doe `div` 1460 + doe `div` 36524 - doe `div` 146096) `div` 365 in
  let y := yoe + era * 400 in
  let doy := doe - (365 * yoe + yoe `div` 4 - yoe `div` 100) in
  let mp := (5 * doy + 2) `div` 153 in
  let d := doy - (153 * mp + 2) `div` 5 + 1 in
  let m := if mp <? 10 then mp + 3 else mp - 9 in
  (if m <=? 2 then y + 1 else y, m, d).

Definition days_from_civil (y m d : Z) : Z :=
  let y := if m <=? 2 then y - 1 else y in
  let era := y `div` 400 in
  let yoe := y - era * 400 in
  let doy := (153 * (if 2 <? m then m - 3 else m + 9) + 2) `div` 5 + d - 1 in
  let doe := yoe * 365 + yoe `div` 4 - yoe `div` 100 + doy in
  era * 146097 + doe - 719468.

Definition year_of (w : Z) : Z := (civil_from_days (days_of w)).1.1.
Definition month_of (w : Z) : Z := (civil_from_days (days_of w)).1.2.
Definition dayofmonth_of (w : Z) : Z := (civil_from_days (days_of w)).2.

(** Day of the week, 0 for Monday; 1970-01-01 was a Thursday. *)
Definition dow_of (w : Z) : Z := (days_of w + 3) `mod` 7.

(** ISO-8601 week: the week of the year that holds this week's Thursday. *)
Definition weekofyear_of (w : Z) : Z :=
  let thursday := days_of w - dow_of w + 3 in
  let y := (civil_from_days thursday).1.1 in
  (thursday - days_from_civil y 1 1) `div` 7 + 1.

Definition weekday_name (dow : Z) : string :=
  match dow with
  | 0 => "Mon" | 1 => "Tue" | 2 => "Wed" | 3 => "Thu"
  | 4 => "Fri" | 5 => "Sat" | _ => "Sun"
  end.

Definition weekday_of (w : Z) : string := weekday_name (dow_of w).
End calendar.

(** ** Storage, failures and the job monad *)

Inductive table :=
  | SongDataT (rows : list SongData.t)
  | LogDataT (rows : list LogData.t)
  | SongsT (rows : list Songs.t)
  | ArtistsT (rows : list Artists.t)
  | UsersT (rows : list Users.t)
  | TimeT (rows : list Time.t)
  | SongplaysT (rows : list Songplays.t).

(** What the job does to storage, in order. *)
Inductive event :=
  | Read (path : string)
  | Write (path : string) (partitionBy : list string).

Record world := World {
  files : gmap string table;
  trace : list event
}.

(** The ways a run aborts: a path that is missing or holds another schema,
    [None // 1000] inside [get_timestamp], and a year outside 1..9999 inside
    [datetime.fromtimestamp]. *)
Inductive error :=
  | AnalysisException (path : string)
  | TypeError
  | ValueError.

Inductive result (A : Type) :=
  | Ok (a : A)
  | Err (e : error).
Arguments Ok {A} a.
Arguments Err {A} e.

#[global] Instance result_ret : MRet result := @Ok.
#[global] Instance result_bind : MBind result := λ A B f m,
  match m with
  | Ok a => f a
  | Err e => Err e
  end.

(** A step of the job: it may change storage and then either returns or
    raises; what was written before a failure stays written. *)
Definition M (A : Type) : Type := world → world * result A.

#[global] Instance M_ret : MRet M := λ A a w, (w, Ok a).
#[global] Instance M_bind : MBind M := λ A B f m w,
  match m w with
  | (w', Ok a) => f a w'
  | (w', Err e) => (w', Err e)
  end.

Definition lift {A} (r : result A) : M A := λ w, (w, r).

(** [spark.read.json(path)] / [spark.read.parquet(path)], with the schema
    the caller goes on to use. *)
Definition read {A} (schema : table → option (list A)) (path : string)
    : M (list A) := λ w,
  match files w !! path ≫= schema with
  | Some rows => (World (files w) (trace w ++ [Read path]), Ok rows)
  | None => (w, Err (AnalysisException path))
  end.

(** [table.write.mode('overwrite').partitionBy(cols).parquet(path)]. *)
Definition write (path : string) (partitionBy : list string) (t : table)
    : M unit := λ w,
  (World (<[path := t]> (files w)) (trace w ++ [Write path partitionBy]),
   Ok ()).

Definition song_data_schema (t : table) : option (list SongData.t) :=
  match t with SongDataT rows => Some rows | _ => None end.
Definition log_data_schema (t : table) : option (list LogData.t) :=
  match t with LogDataT rows => Some rows | _ => None end.
Definition songs_schema (t : table) : option (list Songs.t) :=
  match t with SongsT rows => Some rows | _ => None end.
Definition artists_schema (t : table) : option (list Artists.t) :=
  match t with ArtistsT rows => Some rows | _ => None end.

(** [os.path.join(a, b)] for one component. *)
Definition path_join (a b : string) : string :=
  if String.prefix "/" b then b
  else if bool_decide (a = EmptyString) || String.prefix "/" (String.rev a)
       then a +:+ b
       else a +:+ "/" +:+ b.

(** ** The session

    [create_spark_session] sets one option, the hadoop-aws package.  The job
    observes two more things of the session and its host: the default time
    zone (a fixed offset from UTC, in seconds), which the Python workers and
    the engine share, and how the engine lays the rows of the songplays join
    out over partitions (the sizes of the leading partitions; what is left
    goes to a last one). *)
Record SparkSession := {
  timeZone : Z;
  partition_sizes : list nat
}.

(** ** process_song_data *)

Definition select_songs (r : SongData.t) : Songs.t :=
  Songs.mk (SongData.song_id r) (SongData.title r) (SongData.artist_id r)
    (SongData.year r) (SongData.duration r).

Definition select_artists (r : SongData.t) : Artists.t :=
  Artists.mk (SongData.artist_id r) (SongData.artist_name r)
    (SongData.artist_location r) (SongData.artist_latitude r)
    (SongData.artist_longitude r).

Definition songs_table (df : list SongData.t) : list Songs.t :=
  distinct (select_songs <$> df).

Definition artists_table (df : list SongData.t) : list Artists.t :=
  distinct (select_artists <$> df).

Definition process_song_data (spark : SparkSession)
    (input_data output_data : string) : M unit :=
  let song_data := path_join input_data "song_data" in
  df ← read song_data_schema song_data;
  write (path_join output_data "songs") ["year"; "artist_id"]
    (SongsT (songs_table df));;
  write (path_join output_data "artists") [] (ArtistsT (artists_table df)).

(** ** process_log_data *)

Definition select_users (r : LogData.t) : Users.t :=
  Users.mk (LogData.userId r) (LogData.firstName r) (LogData.lastName r)
    (LogData.gender r) (LogData.level r).

Definition users_table (df : list LogData.t) : list Users.t :=
  distinct (select_users <$> df).

(** [lambda ts: ts // 1000] with return type long.  Python's [//] rounds
    towards minus infinity, as [Z.div] does; on NULL the lambda gets [None]
    and raises.  The column is a 64-bit long and so is its quotient. *)
Definition get_timestamp (ts : option Z) : result Z :=
  match ts with
  | Some ts => Ok (ts `div` 1000)%Z
  | None => Err TypeError
  end.

(** The wall-clock range of Python's [datetime]: 0001-01-01T00:00:00 to
    9999-12-31T23:59:59, in seconds from 1970-01-01T00:00:00. *)
Definition datetime_min : Z := (-719162 * 86400)%Z.
Definition datetime_max : Z := (2932897 * 86400 - 1)%Z.

(** [datetime.fromtimestamp(ts)]: the naive wall-clock reading of the
    instant [ts] in the local zone. *)
Definition fromtimestamp (tz ts : Z) : result Z :=
  let wall := (ts + tz)%Z in
  if bool_decide (datetime_min ≤ wall ≤ datetime_max)%Z then Ok wall
  else Err ValueError.

(** A naive datetime returned by a UDF of type timestamp is read back as an
    instant, in the local zone again ([time.mktime]). *)
Definition toInternal (tz wall : Z) : Z := (wall - tz)%Z.

(** [lambda ts: datetime.fromtimestamp(ts)] with return type timestamp. *)
Definition get_datetime (tz ts : Z) : result Z :=
  wall ← fromtimestamp tz ts; Ok (toInternal tz wall).

(** The two [withColumn] calls on one row. *)
Definition with_ts_datetime (tz : Z) (r : LogData.t) : result Event.t :=
  ts ← get_timestamp (LogData.ts r);
  datetime ← get_datetime tz ts;
  Ok (Event.mk r ts datetime).

(** The engine's field functions read an instant in the session zone. *)
Definition hour (tz t : Z) : Z := hour_of (t + tz).
Definition dayofmonth (tz t : Z) : Z := dayofmonth_of (t + tz).
Definition weekofyear (tz t : Z) : Z := weekofyear_of (t + tz).
Definition month (tz t : Z) : Z := month_of (t + tz).
Definition year (tz t : Z) : Z := year_of (t + tz).
Definition date_format_E (tz t : Z) : string := weekday_of (t + tz).

Definition select_time (tz : Z) (e : Event.t) : Time.t :=
  Time.mk (Event.ts e)
    (hour tz (Event.datetime e))
    (dayofmonth tz (Event.datetime e))
    (weekofyear tz (Event.datetime e))
    (month tz (Event.datetime e))
    (year tz (Event.datetime e))
    (date_format_E tz (Event.datetime e)).

Definition time_table (tz : Z) (df : list Event.t) : list Time.t :=
  distinct (select_time tz <$> df).

(** [song_df.join(artist_df.select('artist_id', name as artist_name),
    'artist_id')]: inner join on equal, non-NULL artist_id. *)
Definition join_artists (song_df : list Songs.t) (artist_df : list Artists.t)
    : list SongArtist.t :=
  s ← song_df; a ← artist_df;
  if sql_eqb (Songs.artist_id s) (Artists.artist_id a)
  then [SongArtist.mk (Songs.artist_id s) (Songs.song_id s) (Songs.title s)
          (Songs.year s) (Songs.duration s) (Artists.name a)]
  else [].

Definition conditions (e : Event.t) (s : SongArtist.t) : bool :=
  sql_eqb (LogData.song (Event.log e)) (SongArtist.title s)
  && sql_eqb (LogData.artist (Event.log e)) (SongArtist.artist_name s)
  && sql_eqb (LogData.length (Event.log e)) (SongArtist.duration s).

(** [df.join(song_df, conditions)]: inner join. *)
Definition join_conditions (df : list Event.t) (song_df : list SongArtist.t)
    : list (Event.t * SongArtist.t) :=
  e ← df; s ← song_df; if conditions e s then [(e, s)] else [].

(** The columns selected from a joined row, and the id column added to it. *)
Definition select_songplays (tz : Z) (j : Event.t * SongArtist.t) (id : Z)
    : Songplays.t :=
  let (e, s) := j in
  Songplays.mk (Event.ts e)
    (LogData.userId (Event.log e))
    (LogData.level (Event.log e))
    (SongArtist.song_id s)
    (SongArtist.artist_id s)
    (LogData.sessionId (Event.log e))
    (LogData.location (Event.log e))
    (LogData.userAgent (Event.log e))
    (month tz (Event.datetime e))
    (year tz (Event.datetime e))
    id.

(** A 64-bit signed long. *)
Definition wrap64 (z : Z) : Z := ((z + 2 ^ 63) `mod` 2 ^ 64 - 2 ^ 63)%Z.

(** [monotonically_increasing_id()] for the [row]-th row of a partition:
    the partition index in the upper bits, the row number in the lower 33. *)
Definition monotonically_increasing_id (partition_index row : nat) : Z :=
  wrap64 (Z.shiftl (Z.of_nat partition_index) 33 + Z.of_nat row).

(** The rows of a DataFrame dealt out to partitions of the given sizes. *)
Fixpoint partitions {A} (sizes : list nat) (df : list A) : list (list A) :=
  match sizes with
  | [] => [df]
  | n :: sizes => take n df :: partitions sizes (drop n df)
  end.

(** [withColumn(c, monotonically_increasing_id())], partition by partition,
    starting at partition [p]; [f] puts the id into the row. *)
Fixpoint with_ids {A B} (f : A → Z → B) (p : nat) (parts : list (list A))
    : list B :=
  match parts with
  | [] => []
  | part :: parts =>
      imap (λ i r, f r (monotonically_increasing_id p i)) part
      ++ with_ids f (S p) parts
  end.

(** The statement of lines 148 to 163, read as it is laid out: the join, the
    select, and [withColumn] on the selected rows.  (How Python reads these
    lines as they are committed is the subject of [songplays_statement]
    below.) *)
Definition songplays_table (spark : SparkSession) (df : list Event.t)
    (song_df : list SongArtist.t) : list Songplays.t :=
  with_ids (select_songplays (timeZone spark)) 0
    (partitions (partition_sizes spark) (join_conditions df song_df)).

Definition process_log_data (spark : SparkSession)
    (input_data output_data : string) : M unit :=
  let log_data := path_join input_data "log_data" in
  df ← read log_data_schema log_data;
  let df := filter (λ r, LogData.page r = Some "NextSong") df in
  write (path_join output_data "users") [] (UsersT (users_table df));;
  df ← lift (mapM (with_ts_datetime (timeZone spark)) df);
  write (path_join output_data "time") []
    (TimeT (time_table (timeZone spark) df));;
  song_df ← read songs_schema (path_join output_data "songs");
  artist_df ← read artists_schema (path_join output_data "artists");
  let song_df := join_artists song_df artist_df in
  write (path_join output_data "songplays") ["year"; "month"]
    (SongplaysT (songplays_table spark df song_df)).

(** ** main *)

Definition input_data : string := "s3a://udacity-dend/".
Definition output_data : string := "s3a://babak-udacity-project4/".

Definition main (spark : SparkSession) : M unit :=
  process_song_data spark input_data output_data;;
  process_log_data spark input_data output_data.

(** * The songplays statement, as committed

    Python joins physical lines into logical lines: a physical line that
    ends in a backslash outside a string literal and outside a comment is
    joined with the next one, and so is every line inside open brackets; a
    comment runs to the end of its physical line, and a backslash does not
    continue a comment.  A logical line indented deeper than the one before
    it is accepted only after a line that opens a block. *)

Definition songplays_statement : list string :=
  ["    songplays_table = df \";
   "        .join(song_df, conditions) \";
   "        .select(col('ts').alias('start_time'),";
   "                col('userId').alias('user_id'),";
   "                'level',";
   "                'song_id',";
   "                'artist_id',";
   "                col('sessionId').alias('session_id'),";
   "                'location',";
   "                col('userAgent').alias('user_agent'),";
   "                # include extra fields, month and year, for partitioning";
   "                # when writing as parquet files";
   "                month('datetime').alias('month'),";
   "                year('datetime').alias('year'),) \";
   "        # set unique id for each songplays row using monotonically increasing id";
   "        .withColumn('songplays_id', monotonically_increasing_id())"].

Definition is_quote (c : ascii) : bool :=
  Ascii.eqb c "'"%char || Ascii.eqb c "034"%char.
Definition is_open (c : ascii) : bool :=
  Ascii.eqb c "("%char || Ascii.eqb c "["%char || Ascii.eqb c "{"%char.
Definition is_close (c : ascii) : bool :=
  Ascii.eqb c ")"%char || Ascii.eqb c "]"%char || Ascii.eqb c "}"%char.

(** One physical line, from bracket depth [depth] and last code character
    [last]: the depth and last code character at its end, and whether it
    ends in a joining backslash.  [quote] is the open string literal, if
    any (no literal of the statement spans lines). *)
Fixpoint scan (s : string) (quote : option ascii) (depth : nat)
    (last : option ascii) : nat * option ascii * bool :=
  match s with
  | EmptyString => (depth, last, false)
  | String c s' =>
      match quote with
      | Some q =>
          if Ascii.eqb c q then scan s' None depth (Some c)
          else
            match s' with
            | String _ s'' =>
                if Ascii.eqb c "\"%char then scan s'' quote depth (Some c)
                else scan s' quote depth (Some c)
            | EmptyString => (depth, Some c, false)
            end
      | None =>
          if Ascii.eqb c "#"%char then (depth, last, false)
          else if Ascii.eqb c "\"%char && bool_decide (s' = EmptyString)
          then (depth, last, true)
          else if is_quote c then scan s' (Some c) depth (Some c)
          else if is_open c then scan s' None (S depth) (Some c)
          else if is_close c then scan s' None (pred depth) (Some c)
          else if Ascii.eqb c " "%char then scan s' None depth last
          else scan s' None depth (Some c)
      end
  end.

Fixpoint indentation (s : string) : nat :=
  match s with
  | String c s' => if Ascii.eqb c " "%char then S (indentation s') else 0
  | EmptyString => 0
  end.

(** A line of blanks, or of blanks and a comment. *)
Fixpoint blank_or_comment (s : string) : bool :=
  match s with
  | String c s' =>
      if Ascii.eqb c " "%char then blank_or_comment s' else Ascii.eqb c "#"%char
  | EmptyString => true
  end.

Record logical_line := LogicalLine {
  indent : nat;
  physical : list nat;
  opens_block : bool
}.

(** The logical lines of the physical lines [ls], numbered from [n]; [cur]
    is the logical line being joined, with its bracket depth and last code
    character. *)
Fixpoint logical_lines (n : nat) (ls : list string)
    (cur : option (nat * list nat * nat * option ascii))
    : list logical_line :=
  match ls with
  | [] =>
      match cur with
      | Some (ind, nums, _, last) =>
          [LogicalLine ind nums (bool_decide (last = Some ":"%char))]
      | None => []
      end
  | l :: ls =>
      let join ind nums depth last :=
        let '(depth, last, backslash) := scan l None depth last in
        if backslash || bool_decide (0 < depth)
        then logical_lines (S n) ls (Some (ind, nums ++ [n], depth, last))
        else LogicalLine ind (nums ++ [n]) (bool_decide (last = Some ":"%char))
             :: logical_lines (S n) ls None
      in
      match cur with
      | Some (ind, nums, depth, last) => join ind nums depth last
      | None =>
          if blank_or_comment l then logical_lines (S n) ls None
          else join (indentation l) [] 0 None
      end
  end.

(** The physical line at which Python raises "unexpected indent". *)
Fixpoint unexpected_indent (ls : list logical_line) : option nat :=
  match ls with
  | a :: (b :: _) as rest =>
      if bool_decide (indent a < indent b) && negb (opens_block a)
      then head (physical b)
      else unexpected_indent rest
  | _ => None
  end.

(** * Observing a run *)

Definition next_song (log : list LogData.t) : list LogData.t :=
  filter (λ r, LogData.page r = Some "NextSong") log.

Definition song_data_trace : list event :=
  [Read (path_join input_data "song_data");
   Write (path_join output_data "songs") ["year"; "artist_id"];
   Write (path_join output_data "artists") []].

Definition log_data_trace : list event :=
  [Read (path_join input_data "log_data");
   Write (path_join output_data "users") [];
   Write (path_join output_data "time") [];
   Read (path_join output_data "songs");
   Read (path_join output_data "artists");
   Write (path_join output_data "songplays") ["year"; "month"]].

(** Storage after process_song_data. *)
Definition song_data_outputs (catalog : list SongData.t)
    (fs : gmap string table) : gmap string table :=
  <[path_join output_data "artists" := ArtistsT (artists_table catalog)]>
  (<[path_join output_data "songs" := SongsT (songs_table catalog)]> fs).

(** Storage after process_log_data, which found [songs] and [artists]. *)
Definition log_data_outputs (spark : SparkSession) (log : list LogData.t)
    (df : list Event.t) (songs : list Songs.t) (artists : list Artists.t)
    (fs : gmap string table) : gmap string table :=
  <[path_join output_data "songplays" :=
      SongplaysT (songplays_table spark df (join_artists songs artists))]>
  (<[path_join output_data "time" := TimeT (time_table (timeZone spark) df)]>
  (<[path_join output_data "users" := UsersT (users_table (next_song log))]>
   fs)).

(** The five tables, as [main] computes them from the two inputs. *)
Definition outputs (spark : SparkSession) (catalog : list SongData.t)
    (log : list LogData.t) (df : list Event.t) (fs : gmap string table)
    : gmap string table :=
  log_data_outputs spark log df (songs_table catalog) (artists_table catalog)
    (song_data_outputs catalog fs).

(** What a reader of the five output paths and the two input paths finds. *)
Definition users_schema (t : table) : option (list Users.t) :=
  match t with UsersT rows => Some rows | _ => None end.
Definition time_schema (t : table) : option (list Time.t) :=
  match t with TimeT rows => Some rows | _ => None end.
Definition songplays_schema (t : table) : option (list Songplays.t) :=
  match t with SongplaysT rows => Some rows | _ => None end.

Definition rows_at {A} (schema : table → option (list A)) (path : string)
    (w : world) : list A :=
  default [] (files w !! path ≫= schema).

Definition catalog_of : world → list SongData.t :=
  rows_at song_data_schema (path_join input_data "song_data").
Definition log_of : world → list LogData.t :=
  rows_at log_data_schema (path_join input_data "log_data").
Definition songs_of : world → list Songs.t :=
  rows_at songs_schema (path_join output_data "songs").
Definition artists_of : world → list Artists.t :=
  rows_at artists_schema (path_join output_data "artists").
Definition users_of : world → list Users.t :=
  rows_at users_schema (path_join output_data "users").
Definition time_of : world → list Time.t :=
  rows_at time_schema (path_join output_data "time").
Definition songplays_of : world → list Songplays.t :=
  rows_at songplays_schema (path_join output_data "songplays").

(** A songplays row carries the columns of the activity record [a]. *)
Definition originates (a : LogData.t) (r : Songplays.t) : Prop :=
  (∃ ts, LogData.ts a = Some ts ∧ Songplays.start_time r = (ts `div` 1000)%Z)
  ∧ Songplays.user_id r = LogData.userId a
  ∧ Songplays.level r = LogData.level a
  ∧ Songplays.session_id r = LogData.sessionId a
  ∧ Songplays.location r = LogData.location a
  ∧ Songplays.user_agent r = LogData.userAgent a.


(** * Worlds to run the job on *)

(** ** One catalog record and one play of it *)

Definition face_the_ashes : SongData.t :=
  SongData.mk (Some "SOSKICX12A6D4F9F3E") (Some "Face the Ashes")
    (Some "ARC1IHZ1187FB4E920") (Some 2007%Z)
    (Some (Double 4641578989576094881)) (Some "Gob") None None None.

Definition play_15 : LogData.t :=
  LogData.mk (Some "15") None None None (Some "paid") (Some "NextSong")
    (Some 1541105830796%Z) (Some "Face the Ashes") (Some "Gob")
    (Some (Double 4641578989576094881)) (Some 818%Z) None None.

Definition input_files (catalog : list SongData.t) (log : list LogData.t)
    : gmap string table :=
  {[ "s3a://udacity-dend/song_data" := SongDataT catalog;
     "s3a://udacity-dend/log_data" := LogDataT log ]}.

Definition utc : SparkSession := {| timeZone := 0; partition_sizes := [] |}.

Definition scenario : world :=
  World (input_files [face_the_ashes] [play_15]) [].

Definition scenario_end : world := (main utc scenario).1.

Definition scenario_play : Songplays.t :=
  Songplays.mk 1541105830 (Some "15") (Some "paid")
    (Some "SOSKICX12A6D4F9F3E") (Some "ARC1IHZ1187FB4E920") (Some 818%Z)
    None None 11 2018 0.

(** ** Variations *)

(** The same user opening the home page: not a song play. *)
Definition home_15 : LogData.t :=
  LogData.mk (Some "15") None None None (Some "paid") (Some "Home")
    (Some 1541105800000%Z) None None None (Some 818%Z) None None.

Definition browsing : world :=
  World (input_files [face_the_ashes] [home_15; play_15; home_15]) [].

Definition browsing_end : world := (main utc browsing).1.

(** A play a second and a half before the epoch. *)
Definition play_1969 : LogData.t :=
  LogData.mk (Some "15") None None None (Some "paid") (Some "NextSong")
    (Some (-1500)%Z) (Some "Face the Ashes") (Some "Gob")
    (Some (Double 4641578989576094881)) (Some 818%Z) None None.

Definition before_epoch : world :=
  World (input_files [face_the_ashes] [play_1969]) [].

(** Face the Ashes once more, under another title and with the artist's
    location filled in. *)
Definition face_the_ashes_live : SongData.t :=
  SongData.mk (Some "SOSKICX12A6D4F9F3E") (Some "Face the Ashes (Live)")
    (Some "ARC1IHZ1187FB4E920") (Some 2007%Z)
    (Some (Double 4641578989576094881)) (Some "Gob")
    (Some "Langley, BC") None None.



(** Face the Ashes released a second time, under another song_id. *)
Definition face_the_ashes_single : SongData.t :=
  SongData.mk (Some "SOFTASG12A6D4F9F3E") (Some "Face the Ashes")
    (Some "ARC1IHZ1187FB4E920") (Some 2007%Z)
    (Some (Double 4641578989576094881)) (Some "Gob") None None None.

Definition two_releases : world :=
  World (input_files [face_the_ashes; face_the_ashes_single] [play_15]) [].

(** A host one hour east of UTC. *)
Definition cet : SparkSession := {| timeZone := 3600; partition_sizes := [] |}.

(** A session that puts the first joined row in a partition of its own. *)
Definition split_session : SparkSession :=
  {| timeZone := 0; partition_sizes := [1] |}.

Definition two_releases_end : world := (main split_session two_releases).1.

(** * Further observations and worlds *)

(** The two UDFs succeed on the record [a]: its ts is not NULL and the
    wall clock of its start_time is one Python's [datetime] can hold. *)
Definition good_ts (tz : Z) (a : LogData.t) : Prop :=
  ∃ ts, LogData.ts a = Some ts ∧
    (datetime_min ≤ ts `div` 1000 + tz ≤ datetime_max)%Z.



(** Storage with nothing in it, and storage that holds the log only. *)
Definition nothing : world := World ∅ [].

Definition log_only : world :=
  World {[ "s3a://udacity-dend/log_data" := LogDataT [play_15] ]} [].

Definition catalog_only : world :=
  World {[ "s3a://udacity-dend/song_data" := SongDataT [face_the_ashes] ]} [].

(** A play whose ts is missing. *)
Definition play_no_ts : LogData.t :=
  LogData.mk (Some "15") None None None (Some "paid") (Some "NextSong")
    None (Some "Face the Ashes") (Some "Gob")
    (Some (Double 4641578989576094881)) (Some 818%Z) None None.

(** A home-page record whose ts is missing. *)
Definition home_no_ts : LogData.t :=
  LogData.mk (Some "15") None None None (Some "paid") (Some "Home")
    None None None None (Some 818%Z) None None.

(** The user of the scenario on the free tier, playing a song that is not
    in the catalog. *)
Definition play_free : LogData.t :=
  LogData.mk (Some "15") None None None (Some "free") (Some "NextSong")
    (Some 1541105000000%Z) (Some "Face The Ashes") (Some "Gob")
    (Some (Double 4641578989576094881)) (Some 817%Z) None None.

(** A log whose second play has no ts, in storage with the catalog. *)
Definition lost_ts : world :=
  World (input_files [face_the_ashes] [home_no_ts; play_15; play_no_ts]) [].

(** The user of the scenario playing on both tiers. *)
Definition two_tiers : world :=
  World (input_files [face_the_ashes] [play_free; play_15]) [].

Definition two_tiers_end : world := (main utc two_tiers).1.






(** * Properties *)

(** ** The job monad *)

Lemma mapM_Ok {A B} (f : A → result B) (l : list A) (k : list B) :
  mapM f l = Ok k → Forall2 (λ x y, f x = Ok y) l k.
Proof.
  revert k. induction l as [|x l IH]; intros k; simpl.
  - intros [= <-]. constructor.
  - unfold mbind, result_bind at 1.
    destruct (f x) as [y|] eqn:Hx; [|done].
    destruct (mapM f l) as [k'|]; simpl; [|done].
    intros [= <-]. constructor; auto.
Qed.

Lemma mapM_Ok_elem_of {A B} (f : A → result B) (l : list A) (k : list B) y :
  mapM f l = Ok k → y ∈ k → ∃ x, x ∈ l ∧ f x = Ok y.
Proof.
  intros HF%mapM_Ok (i & Hi)%list_elem_of_lookup_1.
  destruct (Forall2_lookup_r _ _ _ _ _ HF Hi) as (x & Hx & ?).
  exists x. split; [by eapply list_elem_of_lookup_2 | done].
Qed.

(** One [bind] of the job monad, on a step whose outcome is known. *)
Lemma M_bind_eq {A B} (m : M A) (f : A → M B) w w1 a :
  m w = (w1, Ok a) → (m ≫= f) w = f a w1.
Proof. unfold mbind, M_bind. by intros ->. Qed.

Lemma M_bind_Ok {A B} (m : M A) (f : A → M B) w w' b :
  (m ≫= f) w = (w', Ok b) → ∃ w1 a, m w = (w1, Ok a) ∧ f a w1 = (w', Ok b).
Proof.
  unfold mbind, M_bind. destruct (m w) as [w1 [a|e]]; [eauto | done].
Qed.

Lemma M_bind_Err {A B} (m : M A) (f : A → M B) w w1 e :
  m w = (w1, Err e) → (m ≫= f) w = (w1, Err e).
Proof. unfold mbind, M_bind. by intros ->. Qed.

Lemma read_Ok {A} (schema : table → option (list A)) path w w' rows :
  read schema path w = (w', Ok rows) →
  files w !! path ≫= schema = Some rows ∧
  w' = World (files w) (trace w ++ [Read path]).
Proof.
  unfold read. destruct (files w !! path ≫= schema); [|done].
  by intros [= <- <-].
Qed.

Lemma read_eq {A} (schema : table → option (list A)) path w rows :
  files w !! path ≫= schema = Some rows →
  read schema path w = (World (files w) (trace w ++ [Read path]), Ok rows).
Proof. unfold read. by intros ->. Qed.

Lemma song_data_schema_Some (fs : gmap string table) (path : string) rows :
  fs !! path ≫= song_data_schema = Some rows ↔
  fs !! path = Some (SongDataT rows).
Proof.
  destruct (fs !! path) as [[]|]; simpl; split; congruence.
Qed.

Lemma log_data_schema_Some (fs : gmap string table) (path : string) rows :
  fs !! path ≫= log_data_schema = Some rows ↔
  fs !! path = Some (LogDataT rows).
Proof.
  destruct (fs !! path) as [[]|]; simpl; split; congruence.
Qed.

Lemma songs_schema_Some (fs : gmap string table) (path : string) rows :
  fs !! path ≫= songs_schema = Some rows ↔ fs !! path = Some (SongsT rows).
Proof.
  destruct (fs !! path) as [[]|]; simpl; split; congruence.
Qed.

Lemma artists_schema_Some (fs : gmap string table) (path : string) rows :
  fs !! path ≫= artists_schema = Some rows ↔
  fs !! path = Some (ArtistsT rows).
Proof.
  destruct (fs !! path) as [[]|]; simpl; split; congruence.
Qed.

Lemma rows_at_insert_eq {A} (schema : table → option (list A)) path t fs tr :
  rows_at schema path (World (<[path := t]> fs) tr) = default [] (schema t).
Proof. unfold rows_at. simpl. by rewrite lookup_insert_eq. Qed.

Lemma rows_at_insert_ne {A} (schema : table → option (list A)) path p t fs tr :
  p ≠ path →
  rows_at schema path (World (<[p := t]> fs) tr)
  = rows_at schema path (World fs tr).
Proof. intros. unfold rows_at. simpl. by rewrite lookup_insert_ne. Qed.

Lemma rows_at_lookup {A} (schema : table → option (list A)) path w rows :
  files w !! path ≫= schema = Some rows → rows_at schema path w = rows.
Proof. unfold rows_at. by intros ->. Qed.

(** ** Joins and distinct *)

Lemma sql_eqb_true {A} `{EqDecision A} (a b : option A) :
  sql_eqb a b = true ↔ ∃ x, a = Some x ∧ b = Some x.
Proof.
  destruct a as [x|], b as [y|]; simpl; try (split; [done | by intros (? & ? & ?)]).
  rewrite bool_decide_eq_true. split; [intros ->; eauto | by intros (? & [= ->] & [= ->])].
Qed.

Lemma elem_of_join_artists song_df artist_df r :
  r ∈ join_artists song_df artist_df ↔
  ∃ s a, s ∈ song_df ∧ a ∈ artist_df ∧
    sql_eqb (Songs.artist_id s) (Artists.artist_id a) = true ∧
    r = SongArtist.mk (Songs.artist_id s) (Songs.song_id s) (Songs.title s)
          (Songs.year s) (Songs.duration s) (Artists.name a).
Proof.
  unfold join_artists. rewrite list_elem_of_bind. split.
  - intros (s & (a & Hr & Ha)%list_elem_of_bind & Hs).
    destruct (sql_eqb _ _) eqn:E; [|by apply elem_of_nil in Hr].
    apply list_elem_of_singleton in Hr. eauto 10.
  - intros (s & a & Hs & Ha & E & ->). exists s. split; [|done].
    apply list_elem_of_bind. exists a. rewrite E. split; [|done].
    by apply list_elem_of_singleton.
Qed.

Lemma elem_of_join_conditions df song_df e s :
  (e, s) ∈ join_conditions df song_df ↔
  e ∈ df ∧ s ∈ song_df ∧ conditions e s = true.
Proof.
  unfold join_conditions. rewrite list_elem_of_bind. split.
  - intros (e' & (s' & Hr & Hs)%list_elem_of_bind & He).
    destruct (conditions e' s') eqn:E; [|by apply elem_of_nil in Hr].
    apply list_elem_of_singleton in Hr. by simplify_eq.
  - intros (He & Hs & E). exists e. split; [|done].
    apply list_elem_of_bind. exists s. rewrite E. split; [|done].
    by apply list_elem_of_singleton.
Qed.


(** ** Partitions and the id column *)

Lemma concat_partitions {A} (sizes : list nat) (df : list A) :
  concat (partitions sizes df) = df.
Proof.
  revert df. induction sizes as [|n sizes IH]; intros df; simpl.
  - apply app_nil_r.
  - by rewrite IH, take_drop.
Qed.

Lemma length_partitions {A} (sizes : list nat) (df : list A) :
  length (partitions sizes df) = S (length sizes).
Proof.
  revert df. induction sizes as [|n sizes IH]; intros df; simpl; [done|].
  by rewrite IH.
Qed.

Lemma partitions_bounded {A} (sizes : list nat) (df : list A) :
  Forall (λ n, (Z.of_nat n ≤ 2 ^ 33)%Z) sizes →
  (Z.of_nat (length df) ≤ Z.of_nat (sum_list sizes) + 2 ^ 33)%Z →
  Forall (λ part, (Z.of_nat (length part) ≤ 2 ^ 33)%Z) (partitions sizes df).
Proof.
  revert df. induction sizes as [|n sizes IH]; intros df Hsizes Hlen; simpl.
  - constructor; [simpl in Hlen; lia | constructor].
  - apply Forall_cons in Hsizes as [Hn Hsizes]. constructor.
    + rewrite length_take. lia.
    + apply IH; [done|]. rewrite length_drop. simpl in Hlen. lia.
Qed.

Lemma elem_of_with_ids {A B} (f : A → Z → B) p (parts : list (list A)) r :
  r ∈ with_ids f p parts → ∃ j id, j ∈ concat parts ∧ r = f j id.
Proof.
  revert p. induction parts as [|part parts IH]; intros p; simpl.
  - by intros ?%elem_of_nil.
  - intros [Hr|Hr]%elem_of_app.
    + apply elem_of_lookup_imap_1 in Hr as (i & j & -> & Hj).
      exists j, (monotonically_increasing_id p i). split; [|done].
      apply elem_of_app. left. by eapply list_elem_of_lookup_2.
    + destruct (IH _ Hr) as (j & id & ? & ->). exists j, id. split; [|done].
      apply elem_of_app. by right.
Qed.

Lemma length_with_ids {A B} (f : A → Z → B) p (parts : list (list A)) :
  length (with_ids f p parts) = length (concat parts).
Proof.
  revert p. induction parts as [|part parts IH]; intros p; simpl; [done|].
  by rewrite !length_app, length_imap, IH.
Qed.


Lemma monotonically_increasing_id_nowrap p i :
  (Z.of_nat p < 2 ^ 30)%Z → (Z.of_nat i < 2 ^ 33)%Z →
  monotonically_increasing_id p i = (Z.of_nat p * 2 ^ 33 + Z.of_nat i)%Z.
Proof.
  intros Hp Hi. unfold monotonically_increasing_id, wrap64.
  rewrite Z.shiftl_mul_pow2 by lia.
  rewrite Z.mod_small; lia.
Qed.

Section ids.
Context {A B : Type} (f : A → Z → B) (id_of : B → Z).
Hypothesis id_of_f : ∀ r id, id_of (f r id) = id.

(** The ids of the rows of partition [p] from row [k] on. *)
Lemma partition_ids_sorted p k (part : list A) :
  (Z.of_nat p < 2 ^ 30)%Z →
  (Z.of_nat k + Z.of_nat (length part) ≤ 2 ^ 33)%Z →
  let ids :=
    id_of <$> imap (λ i r, f r (monotonically_increasing_id p (k + i))) part
  in
  StronglySorted Z.lt ids ∧
  Forall (λ id, Z.of_nat p * 2 ^ 33 + Z.of_nat k ≤ id
                < (Z.of_nat p + 1) * 2 ^ 33)%Z ids.
Proof.
  intros Hp. revert k. induction part as [|r part IH]; intros k Hk ids.
  - split; constructor.
  - subst ids. rewrite imap_cons. simpl in *. rewrite id_of_f.
    rewrite (imap_ext _
      (λ i r, f r (monotonically_increasing_id p (S k + i))))
      by (intros; simpl; do 2 f_equal; lia).
    destruct (IH (S k)) as [Hs Hb]; [lia|].
    rewrite Nat.add_0_r.
    rewrite monotonically_increasing_id_nowrap by lia.
    split.
    + constructor; [done|]. eapply Forall_impl; [exact Hb|].
      simpl. intros; lia.
    + constructor; [lia|]. eapply Forall_impl; [exact Hb|].
      simpl. intros; lia.
Qed.

Lemma with_ids_sorted p (parts : list (list A)) :
  (Z.of_nat p + Z.of_nat (length parts) ≤ 2 ^ 30)%Z →
  Forall (λ part, (Z.of_nat (length part) ≤ 2 ^ 33)%Z) parts →
  StronglySorted Z.lt (id_of <$> with_ids f p parts) ∧
  Forall (λ id, Z.of_nat p * 2 ^ 33 ≤ id)%Z (id_of <$> with_ids f p parts).
Proof.
  revert p. induction parts as [|part parts IH]; intros p Hp Hparts; simpl.
  - split; constructor.
  - apply Forall_cons in Hparts as [Hpart Hparts]. simpl in Hp.
    destruct (IH (S p)) as [Hs Hb]; [lia|done|].
    destruct (partition_ids_sorted p 0 part) as [Hs0 Hb0]; [lia..|].
    simpl in Hs0, Hb0. rewrite fmap_app. split.
    + apply StronglySorted_app_2; [|done..].
      intros x1 x2 H1 H2.
      apply (proj1 (Forall_forall _ _) Hb0) in H1.
      apply (proj1 (Forall_forall _ _) Hb) in H2. lia.
    + apply Forall_app. split.
      * eapply Forall_impl; [exact Hb0|]. simpl. intros; lia.
      * eapply Forall_impl; [exact Hb|]. simpl. intros; lia.
Qed.
End ids.

Lemma StronglySorted_lt_NoDup (l : list Z) : StronglySorted Z.lt l → NoDup l.
Proof.
  induction 1 as [|x l Hs IH Hx]; constructor; [|done].
  intros Hin. apply (proj1 (Forall_forall _ _) Hx) in Hin. lia.
Qed.

Lemma StronglySorted_lt_lookup (l : list Z) i j x y :
  StronglySorted Z.lt l → i ≤ j → l !! i = Some x → l !! j = Some y →
  (x ≤ y)%Z.
Proof.
  intros Hs. revert i j. induction Hs as [|z l Hs IH Hz]; intros i j Hij Hi Hj.
  - done.
  - destruct i as [|i], j as [|j]; simpl in *; simplify_eq; try lia.
    + apply list_elem_of_lookup_2 in Hj.
      apply (proj1 (Forall_forall _ _) Hz) in Hj. lia.
    + apply (IH i j); [lia|done..].
Qed.

(** ** What a run leaves behind *)

Lemma process_song_data_eq spark w catalog :
  files w !! path_join input_data "song_data" = Some (SongDataT catalog) →
  process_song_data spark input_data output_data w =
    (World (song_data_outputs catalog (files w))
       (trace w ++ song_data_trace), Ok ()).
Proof.
  intros Hc%song_data_schema_Some. unfold process_song_data.
  erewrite M_bind_eq by (by apply read_eq).
  erewrite M_bind_eq by reflexivity.
  unfold write, song_data_outputs, song_data_trace. simpl.
  by rewrite <- !(assoc_L (++)).
Qed.

Lemma process_song_data_Ok spark w w' :
  process_song_data spark input_data output_data w = (w', Ok ()) →
  ∃ catalog,
    files w !! path_join input_data "song_data" = Some (SongDataT catalog).
Proof.
  unfold process_song_data.
  intros (w1 & catalog & [Hc _]%read_Ok & _)%M_bind_Ok.
  exists catalog. by apply song_data_schema_Some.
Qed.

Lemma process_log_data_eq spark w log df songs artists :
  files w !! path_join input_data "log_data" = Some (LogDataT log) →
  mapM (with_ts_datetime (timeZone spark)) (next_song log) = Ok df →
  files w !! path_join output_data "songs" = Some (SongsT songs) →
  files w !! path_join output_data "artists" = Some (ArtistsT artists) →
  process_log_data spark input_data output_data w =
    (World (log_data_outputs spark log df songs artists (files w))
       (trace w ++ log_data_trace), Ok ()).
Proof.
  intros Hl%log_data_schema_Some Hdf Hs Ha. unfold process_log_data.
  erewrite M_bind_eq by (by apply read_eq).
  erewrite M_bind_eq by reflexivity.
  erewrite M_bind_eq by (unfold lift; fold (next_song log); by rewrite Hdf).
  erewrite M_bind_eq by reflexivity.
  erewrite M_bind_eq.
  2:{ apply read_eq, songs_schema_Some. simpl.
      by rewrite !lookup_insert_ne by done. }
  erewrite M_bind_eq.
  2:{ apply read_eq, artists_schema_Some. simpl.
      by rewrite !lookup_insert_ne by done. }
  unfold write, log_data_outputs, log_data_trace. simpl.
  by rewrite <- !(assoc_L (++)).
Qed.

Lemma process_log_data_Ok spark w w' :
  process_log_data spark input_data output_data w = (w', Ok ()) →
  ∃ log df songs artists,
    files w !! path_join input_data "log_data" = Some (LogDataT log) ∧
    mapM (with_ts_datetime (timeZone spark)) (next_song log) = Ok df ∧
    files w !! path_join output_data "songs" = Some (SongsT songs) ∧
    files w !! path_join output_data "artists" = Some (ArtistsT artists).
Proof.
  unfold process_log_data.
  intros (w1 & log & [Hl ->]%read_Ok & H)%M_bind_Ok.
  apply M_bind_Ok in H as (w2 & [] & [= <-] & H).
  apply M_bind_Ok in H as (w3 & df & Hdf & H).
  unfold lift in Hdf. injection Hdf as <- Hdf.
  apply M_bind_Ok in H as (w4 & [] & [= <-] & H).
  apply M_bind_Ok in H as (w5 & songs & [Hs ->]%read_Ok & H).
  apply M_bind_Ok in H as (w6 & artists & [Ha ->]%read_Ok & H).
  simpl in Hs, Ha. apply songs_schema_Some in Hs. apply artists_schema_Some in Ha.
  rewrite !lookup_insert_ne in Hs by done.
  rewrite !lookup_insert_ne in Ha by done.
  exists log, df, songs, artists. split_and!; try done.
  by apply log_data_schema_Some.
Qed.

Lemma process_log_data_tables spark v v' :
  process_log_data spark input_data output_data v = (v', Ok ()) →
  ∃ df,
    mapM (with_ts_datetime (timeZone spark)) (next_song (log_of v)) = Ok df ∧
    v' = World (log_data_outputs spark (log_of v) df (songs_of v)
                  (artists_of v) (files v))
           (trace v ++ log_data_trace).
Proof.
  intros Hrun.
  destruct (process_log_data_Ok _ _ _ Hrun)
    as (log & df & songs & artists & Hl & Hdf & Hs & Ha).
  rewrite (process_log_data_eq _ _ _ _ _ _ Hl Hdf Hs Ha) in Hrun.
  assert (log_of v = log) as ->
    by by apply rows_at_lookup, log_data_schema_Some.
  assert (songs_of v = songs) as ->
    by by apply rows_at_lookup, songs_schema_Some.
  assert (artists_of v = artists) as ->
    by by apply rows_at_lookup, artists_schema_Some.
  exists df. split; [done | congruence].
Qed.

Lemma main_eq spark w catalog log df :
  files w !! path_join input_data "song_data" = Some (SongDataT catalog) →
  files w !! path_join input_data "log_data" = Some (LogDataT log) →
  mapM (with_ts_datetime (timeZone spark)) (next_song log) = Ok df →
  main spark w =
    (World (outputs spark catalog log df (files w))
       (trace w ++ song_data_trace ++ log_data_trace), Ok ()).
Proof.
  intros Hc Hl Hdf. unfold main.
  erewrite M_bind_eq by (by apply process_song_data_eq).
  erewrite process_log_data_eq; try done; simpl.
  - by rewrite <- (assoc_L (++)).
  - unfold song_data_outputs. by rewrite !lookup_insert_ne by done.
  - unfold song_data_outputs.
    rewrite lookup_insert_ne by done. apply lookup_insert_eq.
  - unfold song_data_outputs. apply lookup_insert_eq.
Qed.

Lemma main_Ok spark w w' :
  main spark w = (w', Ok ()) →
  ∃ catalog log df,
    files w !! path_join input_data "song_data" = Some (SongDataT catalog) ∧
    files w !! path_join input_data "log_data" = Some (LogDataT log) ∧
    mapM (with_ts_datetime (timeZone spark)) (next_song log) = Ok df ∧
    w' = World (outputs spark catalog log df (files w))
           (trace w ++ song_data_trace ++ log_data_trace).
Proof.
  intros Hmain. pose proof Hmain as H. unfold main in H.
  apply M_bind_Ok in H as (w1 & [] & H1 & H2).
  destruct (process_song_data_Ok _ _ _ H1) as (catalog & Hc).
  rewrite (process_song_data_eq _ _ _ Hc) in H1. injection H1 as <-.
  destruct (process_log_data_Ok _ _ _ H2) as (log & df & ? & ? & Hl & Hdf & _).
  simpl in Hl. unfold song_data_outputs in Hl.
  rewrite !lookup_insert_ne in Hl by done.
  exists catalog, log, df. split_and!; try done.
  rewrite (main_eq _ _ _ _ _ Hc Hl Hdf) in Hmain. congruence.
Qed.

(** The tables of a successful run, in terms of its two inputs. *)
Lemma main_tables spark w w' :
  main spark w = (w', Ok ()) →
  ∃ df,
    mapM (with_ts_datetime (timeZone spark)) (next_song (log_of w)) = Ok df ∧
    songs_of w' = songs_table (catalog_of w) ∧
    artists_of w' = artists_table (catalog_of w) ∧
    users_of w' = users_table (next_song (log_of w)) ∧
    time_of w' = time_table (timeZone spark) df ∧
    songplays_of w' =
      songplays_table spark df (join_artists (songs_of w') (artists_of w')).
Proof.
  intros (catalog & log & df & Hc & Hl & Hdf & ->)%main_Ok.
  assert (catalog_of w = catalog) as ->
    by by apply rows_at_lookup, song_data_schema_Some.
  assert (log_of w = log) as ->
    by by apply rows_at_lookup, log_data_schema_Some.
  exists df. split; [done|].
  unfold songs_of, artists_of, users_of, time_of, songplays_of.
  unfold outputs, log_data_outputs, song_data_outputs.
  repeat first
    [ rewrite rows_at_insert_eq
    | rewrite rows_at_insert_ne by (vm_compute; discriminate) ].
  done.
Qed.

(** ** Rows of the activity DataFrame *)

Lemma with_ts_datetime_Ok tz r e :
  with_ts_datetime tz r = Ok e →
  ∃ ts, LogData.ts r = Some ts ∧
    e = Event.mk r (ts `div` 1000) (ts `div` 1000) ∧
    (datetime_min ≤ ts `div` 1000 + tz ≤ datetime_max)%Z.
Proof.
  unfold with_ts_datetime, get_timestamp, get_datetime, fromtimestamp.
  destruct (LogData.ts r) as [ts|]; simpl; [|done].
  case_bool_decide as Hr; simpl; [|done].
  intros [= <-]. exists ts. split; [done|]. split; [|done].
  unfold toInternal. f_equal. lia.
Qed.

Lemma elem_of_events tz log df e :
  mapM (with_ts_datetime tz) (next_song log) = Ok df →
  e ∈ df →
  ∃ a ts, a ∈ log ∧ LogData.page a = Some "NextSong" ∧
    LogData.ts a = Some ts ∧
    e = Event.mk a (ts `div` 1000) (ts `div` 1000).
Proof.
  intros Hdf He.
  destruct (mapM_Ok_elem_of _ _ _ _ Hdf He) as (a & Ha & Hea).
  apply list_elem_of_filter in Ha as [Hp Ha].
  apply with_ts_datetime_Ok in Hea as (ts & Hts & -> & _).
  by exists a, ts.
Qed.

Lemma retained_event tz log df a :
  mapM (with_ts_datetime tz) (next_song log) = Ok df →
  a ∈ log → LogData.page a = Some "NextSong" →
  ∃ ts, LogData.ts a = Some ts ∧
    Event.mk a (ts `div` 1000) (ts `div` 1000) ∈ df.
Proof.
  intros HF%mapM_Ok Ha Hp.
  assert (a ∈ next_song log) as (i & Hi)%list_elem_of_lookup_1
    by by apply list_elem_of_filter.
  destruct (Forall2_lookup_l _ _ _ _ _ HF Hi) as (e & He & Hae).
  apply with_ts_datetime_Ok in Hae as (ts & Hts & -> & _).
  exists ts. split; [done|]. by eapply list_elem_of_lookup_2.
Qed.

Lemma elem_of_time_table tz df t :
  t ∈ time_table tz df ↔ ∃ e, e ∈ df ∧ t = select_time tz e.
Proof.
  unfold time_table, distinct.
  rewrite elem_of_remove_dups, list_elem_of_fmap.
  split; intros (e & ? & ?); by exists e.
Qed.


Lemma elem_of_songplays_table spark log df song_df r :
  mapM (with_ts_datetime (timeZone spark)) (next_song log) = Ok df →
  r ∈ songplays_table spark df song_df →
  ∃ a e s, a ∈ log ∧ LogData.page a = Some "NextSong" ∧ originates a r ∧
    e ∈ df ∧ Event.log e = a ∧ Event.ts e = Songplays.start_time r ∧
    s ∈ song_df ∧ conditions e s = true ∧
    Songplays.song_id r = SongArtist.song_id s ∧
    Songplays.artist_id r = SongArtist.artist_id s.
Proof.
  intros Hdf Hr. unfold songplays_table in Hr.
  apply elem_of_with_ids in Hr as ([e s] & id & Hj & ->).
  rewrite concat_partitions in Hj.
  apply elem_of_join_conditions in Hj as (He & Hs & Hc).
  destruct (elem_of_events _ _ _ _ Hdf He) as (a & ts & Ha & Hp & Hts & ->).
  exists a, (Event.mk a (ts `div` 1000) (ts `div` 1000)), s.
  unfold originates. simpl. split_and!; eauto.
Qed.

(** * The claims *)

(** C1. Join soundness: in every run, every row of songplays (so every row
    with non-null song_id and artist_id) comes from an activity record, a
    row of songs and a row of artists with the row's song_id and artist_id,
    such that the song's title is the record's song, the artist's name is
    the record's artist and the song's duration is the record's length, all
    three non-null and exactly equal. *)
Theorem songplays_join_sound spark w w' r :
  main spark w = (w', Ok ()) →
  r ∈ songplays_of w' →
  ∃ a s ar,
    a ∈ log_of w ∧ originates a r ∧ s ∈ songs_of w' ∧ ar ∈ artists_of w' ∧
    Songplays.song_id r = Songs.song_id s ∧
    Songplays.artist_id r = Songs.artist_id s ∧
    Songplays.artist_id r = Artists.artist_id ar ∧
    (∃ title, LogData.song a = Some title ∧ Songs.title s = Some title) ∧
    (∃ name, LogData.artist a = Some name ∧ Artists.name ar = Some name) ∧
    (∃ d, LogData.length a = Some d ∧ Songs.duration s = Some d).
Proof.
  intros (df & Hdf & _ & _ & _ & _ & Hplays)%main_tables Hr.
  rewrite Hplays in Hr.
  destruct (elem_of_songplays_table _ _ _ _ _ Hdf Hr)
    as (a & e & sa & Ha & _ & Hor & _ & <- & _ & Hsa & Hc & Hsid & Haid).
  apply elem_of_join_artists in Hsa as (s & ar & Hs & Har & Hid & ->).
  unfold conditions in Hc. simpl in *.
  apply andb_prop in Hc as [[Ht Hn]%andb_prop Hd].
  apply sql_eqb_true in Hid as (i & Hi1 & Hi2), Ht, Hn, Hd.
  exists (Event.log e), s, ar. split_and!; try done. congruence.
Qed.

(** The scenario is such a run, and its one songplays row such a row. *)
Lemma songplays_join_sound_witness :
  main utc scenario = (scenario_end, Ok ()) ∧
  scenario_play ∈ songplays_of scenario_end ∧
  ∃ a s ar,
    a ∈ log_of scenario ∧ originates a scenario_play ∧
    s ∈ songs_of scenario_end ∧ ar ∈ artists_of scenario_end ∧
    Songplays.song_id scenario_play = Songs.song_id s ∧
    Songplays.artist_id scenario_play = Songs.artist_id s ∧
    Songplays.artist_id scenario_play = Artists.artist_id ar ∧
    (∃ title, LogData.song a = Some title ∧ Songs.title s = Some title) ∧
    (∃ name, LogData.artist a = Some name ∧ Artists.name ar = Some name) ∧
    (∃ d, LogData.length a = Some d ∧ Songs.duration s = Some d).
Proof.
  assert (main utc scenario = (scenario_end, Ok ())) as Hrun
    by (vm_compute; reflexivity).
  assert (scenario_play ∈ songplays_of scenario_end) as Hrow
    by (apply (bool_decide_unpack _); vm_compute; exact I).
  split; [exact Hrun|]. split; [exact Hrow|].
  exact (songplays_join_sound utc scenario scenario_end scenario_play
           Hrun Hrow).
Defined.



(** C3, as stated, fails: the record with ts = -1500 gets start_time -2,
    while -1500 divided by 1000 with truncation toward zero is -1. *)
Lemma start_time_not_truncated :
  ∃ w' t,
    main utc before_epoch = (w', Ok ()) ∧
    log_of before_epoch = [play_1969] ∧
    LogData.page play_1969 = Some "NextSong" ∧
    LogData.ts play_1969 = Some (-1500)%Z ∧
    time_of w' = [t] ∧
    Time.start_time t = (-2)%Z ∧
    (-1500 `quot` 1000 = -1)%Z ∧
    Time.start_time t ≠ (-1500 `quot` 1000)%Z.
Proof.
  eexists _, _. split; [vm_compute; reflexivity|].
  split_and!;
    [reflexivity .. | vm_compute; reflexivity | reflexivity | reflexivity
    | done].
Qed.

(** C3, amended. For every retained activity record of a run, with
    millisecond timestamp ts, the time table has the row whose start_time is
    ts divided by 1000 rounded toward minus infinity; this is the quotient
    truncated toward zero whenever ts is not negative, and 1541105830 for
    ts = 1541105830796. *)
Theorem start_time_floor spark w w' a :
  main spark w = (w', Ok ()) →
  a ∈ log_of w →
  LogData.page a = Some "NextSong" →
  ∃ ts t,
    LogData.ts a = Some ts ∧
    get_timestamp (LogData.ts a) = Ok (ts `div` 1000)%Z ∧
    t ∈ time_of w' ∧
    Time.start_time t = (ts `div` 1000)%Z ∧
    (0 ≤ ts → Time.start_time t = ts `quot` 1000)%Z ∧
    (ts = 1541105830796 → Time.start_time t = 1541105830)%Z.
Proof.
  intros (df & Hdf & _ & _ & _ & Htime & _)%main_tables Ha Hp.
  destruct (retained_event _ _ _ _ Hdf Ha Hp) as (ts & Hts & He).
  exists ts, (select_time (timeZone spark) (Event.mk a (ts `div` 1000) (ts `div` 1000))).
  rewrite Htime, Hts. simpl. split_and!; try done.
  - apply elem_of_time_table. eauto.
  - intros. symmetry. apply Z.quot_div_nonneg; lia.
  - by intros ->.
Qed.

(** The play of the scenario is such a record. *)
Lemma start_time_floor_witness :
  main utc scenario = (scenario_end, Ok ()) ∧
  play_15 ∈ log_of scenario ∧
  LogData.page play_15 = Some "NextSong" ∧
  ∃ ts t,
    LogData.ts play_15 = Some ts ∧
    get_timestamp (LogData.ts play_15) = Ok (ts `div` 1000)%Z ∧
    t ∈ time_of scenario_end ∧
    Time.start_time t = (ts `div` 1000)%Z ∧
    (0 ≤ ts → Time.start_time t = ts `quot` 1000)%Z ∧
    (ts = 1541105830796 → Time.start_time t = 1541105830)%Z.
Proof.
  assert (main utc scenario = (scenario_end, Ok ())) as Hrun
    by (vm_compute; reflexivity).
  assert (play_15 ∈ log_of scenario) as Hin
    by (apply (bool_decide_unpack _); vm_compute; exact I).
  assert (LogData.page play_15 = Some "NextSong") as Hpage by reflexivity.
  split; [exact Hrun|]. split; [exact Hin|]. split; [exact Hpage|].
  exact (start_time_floor utc scenario scenario_end play_15 Hrun Hin Hpage).
Defined.




(** C5. Filter correctness: in every run, every row of users, time and
    songplays comes from an activity record whose page is "NextSong"; and
    the three tables are the same for any other log with the same NextSong
    records, so records with another page contribute nothing. *)
Theorem activity_tables_next_song_only spark w w' :
  main spark w = (w', Ok ()) →
  (∀ u, u ∈ users_of w' →
     ∃ a, a ∈ log_of w ∧ LogData.page a = Some "NextSong" ∧
       u = select_users a) ∧
  (∀ t, t ∈ time_of w' →
     ∃ a ts, a ∈ log_of w ∧ LogData.page a = Some "NextSong" ∧
       LogData.ts a = Some ts ∧ Time.start_time t = (ts `div` 1000)%Z) ∧
  (∀ r, r ∈ songplays_of w' →
     ∃ a, a ∈ log_of w ∧ LogData.page a = Some "NextSong" ∧ originates a r) ∧
  (∀ v v', main spark v = (v', Ok ()) →
     catalog_of v = catalog_of w →
     next_song (log_of v) = next_song (log_of w) →
     users_of v' = users_of w' ∧ time_of v' = time_of w' ∧
     songplays_of v' = songplays_of w').
Proof.
  intros Hrun.
  destruct (main_tables _ _ _ Hrun)
    as (df & Hdf & Hsongs & Hartists & Husers & Htime & Hplays).
  split_and!.
  - intros u. rewrite Husers. unfold users_table, distinct.
    rewrite elem_of_remove_dups, list_elem_of_fmap.
    intros (a & -> & [Hp Ha]%list_elem_of_filter). eauto.
  - intros t. rewrite Htime. unfold time_table, distinct.
    rewrite elem_of_remove_dups, list_elem_of_fmap. intros (e & -> & He).
    destruct (elem_of_events _ _ _ _ Hdf He) as (a & ts & ? & ? & ? & ->).
    by exists a, ts.
  - intros r. rewrite Hplays. intros Hr.
    destruct (elem_of_songplays_table _ _ _ _ _ Hdf Hr)
      as (a & _ & _ & ? & ? & ? & _). eauto.
  - intros v v' (df' & Hdf' & Hsongs' & Hartists' & Husers' & Htime' & Hplays')
      %main_tables Hcat Hlog.
    rewrite Hlog in Hdf', Husers'. rewrite Hcat in Hsongs', Hartists'.
    assert (df' = df) as -> by congruence.
    rewrite Husers, Husers', Htime, Htime', Hplays, Hplays'.
    by rewrite Hsongs, Hsongs', Hartists, Hartists'.
Qed.

(** A run on a log with two records of another page. *)
Lemma activity_tables_next_song_only_witness :
  main utc browsing = (browsing_end, Ok ()) ∧
  (∀ u, u ∈ users_of browsing_end →
     ∃ a, a ∈ log_of browsing ∧ LogData.page a = Some "NextSong" ∧
       u = select_users a) ∧
  (∀ t, t ∈ time_of browsing_end →
     ∃ a ts, a ∈ log_of browsing ∧ LogData.page a = Some "NextSong" ∧
       LogData.ts a = Some ts ∧ Time.start_time t = (ts `div` 1000)%Z) ∧
  (∀ r, r ∈ songplays_of browsing_end →
     ∃ a, a ∈ log_of browsing ∧ LogData.page a = Some "NextSong" ∧
       originates a r) ∧
  (∀ v v', main utc v = (v', Ok ()) →
     catalog_of v = catalog_of browsing →
     next_song (log_of v) = next_song (log_of browsing) →
     users_of v' = users_of browsing_end ∧ time_of v' = time_of browsing_end ∧
     songplays_of v' = songplays_of browsing_end).
Proof.
  assert (main utc browsing = (browsing_end, Ok ())) as Hrun
    by (vm_compute; reflexivity).
  split; [exact Hrun|].
  exact (activity_tables_next_song_only utc browsing browsing_end Hrun).
Defined.




(** C7. The code sets out to give every songplays row a unique, increasing
    id, and as committed it does not: the comment on line 162 follows the
    backslash that ends line 161, so the logical line of the assignment
    ends with line 162, and [.withColumn('songplays_id', ...)] on line 163
    is a logical line of its own, indented deeper than the assignment, which
    opens no block.  Python rejects the file there (unexpected indent), and
    no run assigns a songplays_id.  Without line 162 the other fifteen
    lines are one logical line. *)
Theorem withColumn_detached :
  logical_lines 148 songplays_statement None =
    [LogicalLine 4 (seq 148 15) false; LogicalLine 8 [163] false] ∧
  unexpected_indent (logical_lines 148 songplays_statement None) = Some 163 ∧
  logical_lines 148 (delete 14 songplays_statement) None =
    [LogicalLine 4 (seq 148 15) false] ∧
  unexpected_indent (logical_lines 148 (delete 14 songplays_statement) None)
    = None.
Proof. by vm_compute. Qed.

(** With line 163 read as the continuation of the chain, as
    [songplays_table] has it: within the songplays table of a run, in row
    order, the songplays_id values are pairwise distinct and never decrease
    (they increase strictly), provided the layout stays within the engine's
    limits of at most 2^30 partitions of at most 2^33 rows each. *)
Theorem songplays_id_increasing spark w w' :
  main spark w = (w', Ok ()) →
  (Z.of_nat (length (partition_sizes spark)) < 2 ^ 30)%Z →
  Forall (λ n, (Z.of_nat n ≤ 2 ^ 33)%Z) (partition_sizes spark) →
  (Z.of_nat (length (songplays_of w'))
   ≤ Z.of_nat (sum_list (partition_sizes spark)) + 2 ^ 33)%Z →
  NoDup (Songplays.songplays_id <$> songplays_of w') ∧
  (∀ i j x y, i ≤ j →
     (Songplays.songplays_id <$> songplays_of w') !! i = Some x →
     (Songplays.songplays_id <$> songplays_of w') !! j = Some y →
     (x ≤ y)%Z) ∧
  StronglySorted Z.lt (Songplays.songplays_id <$> songplays_of w').
Proof.
  intros (df & _ & _ & _ & _ & _ & Hplays)%main_tables Hn Hsizes Hlen.
  rewrite Hplays in *. unfold songplays_table in *.
  rewrite length_with_ids, concat_partitions in Hlen.
  assert (StronglySorted Z.lt
            (Songplays.songplays_id <$>
               with_ids (select_songplays (timeZone spark)) 0
                 (partitions (partition_sizes spark)
                    (join_conditions df
                       (join_artists (songs_of w') (artists_of w'))))))
    as Hsorted.
  { apply with_ids_sorted.
    - by intros [e s] id.
    - rewrite length_partitions. lia.
    - by apply partitions_bounded. }
  split_and!; [|intros i j x y|done].
  - by apply StronglySorted_lt_NoDup.
  - by apply StronglySorted_lt_lookup.
Qed.

(** A run with two songplays rows in two partitions: the ids are 0 and
    2^33, increasing and not contiguous. *)
Lemma songplays_id_increasing_witness :
  main split_session two_releases = (two_releases_end, Ok ()) ∧
  (Z.of_nat (length (partition_sizes split_session)) < 2 ^ 30)%Z ∧
  Forall (λ n, (Z.of_nat n ≤ 2 ^ 33)%Z) (partition_sizes split_session) ∧
  (Z.of_nat (length (songplays_of two_releases_end))
   ≤ Z.of_nat (sum_list (partition_sizes split_session)) + 2 ^ 33)%Z ∧
  Songplays.songplays_id <$> songplays_of two_releases_end
    = [0; 8589934592]%Z ∧
  NoDup (Songplays.songplays_id <$> songplays_of two_releases_end) ∧
  (∀ i j x y, i ≤ j →
     (Songplays.songplays_id <$> songplays_of two_releases_end) !! i = Some x →
     (Songplays.songplays_id <$> songplays_of two_releases_end) !! j = Some y →
     (x ≤ y)%Z) ∧
  StronglySorted Z.lt (Songplays.songplays_id <$> songplays_of two_releases_end).
Proof.
  assert (main split_session two_releases = (two_releases_end, Ok ()))
    as Hrun by (vm_compute; reflexivity).
  assert (Z.of_nat (length (partition_sizes split_session)) < 2 ^ 30)%Z
    as Hn by (simpl; lia).
  assert (Forall (λ n, (Z.of_nat n ≤ 2 ^ 33)%Z)
            (partition_sizes split_session))
    as Hsizes by (repeat constructor; simpl; lia).
  assert (length (songplays_of two_releases_end) = 2) as Hrows
    by (vm_compute; reflexivity).
  assert (Z.of_nat (length (songplays_of two_releases_end))
          ≤ Z.of_nat (sum_list (partition_sizes split_session)) + 2 ^ 33)%Z
    as Hlen by (rewrite Hrows; simpl; lia).
  split; [exact Hrun|]. split; [exact Hn|]. split; [exact Hsizes|].
  split; [exact Hlen|]. split; [vm_compute; reflexivity|].
  exact (songplays_id_increasing split_session two_releases two_releases_end
           Hrun Hn Hsizes Hlen).
Defined.

(** C8. In every run the catalog pipeline has written songs and artists and
    returned before the activity pipeline makes its first step, the activity
    pipeline reads both tables from storage before it writes songplays, and
    songplays is computed from what storage holds at the two output paths:
    on any storage whatever, not only the one the catalog pipeline leaves.
    When the catalog pipeline fails the activity pipeline does not run. *)
Theorem catalog_committed_before_activity spark w w' :
  main spark w = (w', Ok ()) →
  (∃ w1,
     process_song_data spark input_data output_data w = (w1, Ok ()) ∧
     trace w1 = trace w ++ song_data_trace ∧
     files w1 !! path_join output_data "songs"
       = Some (SongsT (songs_table (catalog_of w))) ∧
     files w1 !! path_join output_data "artists"
       = Some (ArtistsT (artists_table (catalog_of w))) ∧
     process_log_data spark input_data output_data w1 = (w', Ok ()) ∧
     trace w' = trace w1 ++ log_data_trace ∧
     ∃ df,
       mapM (with_ts_datetime (timeZone spark)) (next_song (log_of w1))
         = Ok df ∧
       songplays_of w' =
         songplays_table spark df
           (join_artists (songs_of w1) (artists_of w1))) ∧
  (∀ v v',
     process_log_data spark input_data output_data v = (v', Ok ()) →
     ∃ df,
       mapM (with_ts_datetime (timeZone spark)) (next_song (log_of v))
         = Ok df ∧
       songplays_of v' =
         songplays_table spark df (join_artists (songs_of v) (artists_of v))) ∧
  (∀ v v1 e,
     process_song_data spark input_data output_data v = (v1, Err e) →
     main spark v = (v1, Err e)).
Proof.
  intros Hmain.
  assert (∀ v v',
    process_log_data spark input_data output_data v = (v', Ok ()) →
    ∃ df,
      mapM (with_ts_datetime (timeZone spark)) (next_song (log_of v))
        = Ok df ∧
      songplays_of v' =
        songplays_table spark df (join_artists (songs_of v) (artists_of v)))
    as Hlog.
  { intros v v' (df & Hdf & ->)%process_log_data_tables.
    exists df. split; [done|].
    unfold songplays_of, log_data_outputs. by rewrite rows_at_insert_eq. }
  split_and!; [|done|].
  - pose proof Hmain as H. unfold main in H.
    apply M_bind_Ok in H as (w1 & [] & H1 & H2).
    destruct (process_song_data_Ok _ _ _ H1) as (catalog & Hc).
    pose proof H1 as H1'.
    rewrite (process_song_data_eq _ _ _ Hc) in H1'. injection H1' as <-.
    assert (catalog_of w = catalog) as ->
      by by apply rows_at_lookup, song_data_schema_Some.
    destruct (process_log_data_tables _ _ _ H2) as (df & Hdf & Hw').
    exists (World (song_data_outputs catalog (files w))
              (trace w ++ song_data_trace)).
    split_and!; try done.
    + simpl. unfold song_data_outputs.
      rewrite lookup_insert_ne by done. apply lookup_insert_eq.
    + simpl. unfold song_data_outputs. apply lookup_insert_eq.
    + by rewrite Hw'.
    + by apply Hlog.
  - intros v v1 e He. unfold main. by apply M_bind_Err.
Qed.

(** The scenario is such a run; its trace is the nine steps in order. *)
Lemma catalog_committed_before_activity_witness :
  main utc scenario = (scenario_end, Ok ()) ∧
  trace scenario_end = song_data_trace ++ log_data_trace ∧
  ∃ w1,
    process_song_data utc input_data output_data scenario = (w1, Ok ()) ∧
    trace w1 = trace scenario ++ song_data_trace ∧
    files w1 !! path_join output_data "songs"
      = Some (SongsT (songs_table (catalog_of scenario))) ∧
    files w1 !! path_join output_data "artists"
      = Some (ArtistsT (artists_table (catalog_of scenario))) ∧
    process_log_data utc input_data output_data w1 = (scenario_end, Ok ()) ∧
    trace scenario_end = trace w1 ++ log_data_trace ∧
    ∃ df,
      mapM (with_ts_datetime (timeZone utc)) (next_song (log_of w1))
        = Ok df ∧
      songplays_of scenario_end =
        songplays_table utc df (join_artists (songs_of w1) (artists_of w1)).
Proof.
  assert (main utc scenario = (scenario_end, Ok ())) as Hrun
    by (vm_compute; reflexivity).
  split; [exact Hrun|]. split; [vm_compute; reflexivity|].
  exact (proj1 (catalog_committed_before_activity utc scenario scenario_end
                  Hrun)).
Defined.

(** C9. In every run, every start_time of a songplays row is the start_time
    of a row of the time table of the same run. *)
Theorem songplays_start_time_in_time spark w w' r :
  main spark w = (w', Ok ()) →
  r ∈ songplays_of w' →
  ∃ t, t ∈ time_of w' ∧ Time.start_time t = Songplays.start_time r.
Proof.
  intros (df & Hdf & _ & _ & _ & Htime & Hplays)%main_tables Hr.
  rewrite Hplays in Hr.
  destruct (elem_of_songplays_table _ _ _ _ _ Hdf Hr)
    as (_ & e & _ & _ & _ & _ & He & _ & Hts & _).
  exists (select_time (timeZone spark) e). split; [|done].
  rewrite Htime. unfold time_table, distinct.
  by apply elem_of_remove_dups, list_elem_of_fmap_2.
Qed.

(** A run on a log with one play among other pages. *)
Lemma songplays_start_time_in_time_witness :
  main utc browsing = (browsing_end, Ok ()) ∧
  scenario_play ∈ songplays_of browsing_end ∧
  ∃ t, t ∈ time_of browsing_end ∧
    Time.start_time t = Songplays.start_time scenario_play.
Proof.
  assert (main utc browsing = (browsing_end, Ok ())) as Hrun
    by (vm_compute; reflexivity).
  assert (scenario_play ∈ songplays_of browsing_end) as Hrow
    by (apply (bool_decide_unpack _); vm_compute; exact I).
  split; [exact Hrun|]. split; [exact Hrow|].
  exact (songplays_start_time_in_time utc browsing browsing_end scenario_play
           Hrun Hrow).
Defined.

(** C10. There is a catalog of two records with distinct song_id and the
    same title, duration and artist name for which a single matching
    activity record gives two rows of songplays: the join does not keep to
    one row per activity record. *)
Theorem one_play_two_songplays :
  ∃ c1 c2 a w' r1 r2,
    SongData.song_id c1 ≠ SongData.song_id c2 ∧
    SongData.title c1 = SongData.title c2 ∧
    SongData.duration c1 = SongData.duration c2 ∧
    SongData.artist_name c1 = SongData.artist_name c2 ∧
    main utc (World (input_files [c1; c2] [a]) []) = (w', Ok ()) ∧
    songplays_of w' = [r1; r2] ∧
    originates a r1 ∧ originates a r2 ∧
    Songplays.song_id r1 = SongData.song_id c1 ∧
    Songplays.song_id r2 = SongData.song_id c2 ∧
    1 < length (songplays_of w').
Proof.
  exists face_the_ashes, face_the_ashes_single, play_15.
  eexists _, _, _. split; [done|]. do 3 (split; [reflexivity|]).
  split; [vm_compute; reflexivity|].
  split; [vm_compute; reflexivity|].
  unfold originates. simpl. split_and!; try done; try lia.
  all: by exists 1541105830796%Z.
Qed.

(** * Further properties of the code *)

(** ** Paths *)

Lemma path_join_inj a b1 b2 :
  String.prefix "/" b1 = false → String.prefix "/" b2 = false →
  path_join a b1 = path_join a b2 → b1 = b2.
Proof.
  unfold path_join. intros -> ->.
  destruct (_ || _); intros H.
  - by apply (inj (String.app a)) in H.
  - apply (inj (String.app a)) in H. by apply (inj (String.app "/")) in H.
Qed.

Lemma path_join_ne a b1 b2 :
  String.prefix "/" b1 = false → String.prefix "/" b2 = false →
  b1 ≠ b2 → path_join a b1 ≠ path_join a b2.
Proof. intros H1 H2 Hne Heq. by apply Hne, (path_join_inj a). Qed.

(** For every output location the five tables go to five different paths,
    so no table write replaces another table. *)
Theorem output_paths_distinct out :
  NoDup [path_join out "songs"; path_join out "artists";
         path_join out "users"; path_join out "time";
         path_join out "songplays"].
Proof.
  repeat (apply NoDup_cons; split;
    [rewrite ?elem_of_cons, elem_of_nil;
     intros H; repeat destruct H as [H|H]; try done;
     by apply path_join_inj in H|]).
  apply NoDup_nil_2.
Qed.

(** ** process_song_data at any locations *)

Lemma length_distinct {A} `{EqDecision A} (l : list A) :
  length (distinct l) ≤ length l.
Proof.
  apply submseteq_length, NoDup_submseteq; [apply NoDup_remove_dups|].
  intros x. unfold distinct. by rewrite elem_of_remove_dups.
Qed.

(** When the catalog cannot be read (no such path, or another kind of
    data), process_song_data raises, whatever the two locations are, and
    storage is as it was: nothing is written and nothing is logged as
    read. *)
Theorem unreadable_catalog_leaves_storage spark inp out w :
  files w !! path_join inp "song_data" ≫= song_data_schema = None →
  process_song_data spark inp out w
    = (w, Err (AnalysisException (path_join inp "song_data"))).
Proof.
  intros Hc. unfold process_song_data. apply M_bind_Err.
  unfold read. by rewrite Hc.
Qed.

(** Storage that holds the log and no catalog is such a storage. *)
Lemma unreadable_catalog_leaves_storage_witness :
  files log_only !! path_join input_data "song_data" ≫= song_data_schema
    = None ∧
  process_song_data utc input_data "/tmp/lake" log_only
    = (log_only, Err (AnalysisException (path_join input_data "song_data"))).
Proof.
  assert (files log_only !! path_join input_data "song_data"
            ≫= song_data_schema = None) as Hc by reflexivity.
  split; [exact Hc|].
  exact (unreadable_catalog_leaves_storage utc input_data "/tmp/lake"
           log_only Hc).
Defined.



(** The three deduplicated projections depend only on which records occur
    in their input, not on how often or in what order: inputs with the same
    records give the same rows. *)
Theorem tables_of_same_records (c1 c2 : list SongData.t)
    (l1 l2 : list LogData.t) :
  (∀ c, c ∈ c1 ↔ c ∈ c2) →
  (∀ a, a ∈ l1 ↔ a ∈ l2) →
  songs_table c1 ≡ₚ songs_table c2 ∧
  artists_table c1 ≡ₚ artists_table c2 ∧
  users_table l1 ≡ₚ users_table l2.
Proof.
  intros Hc Hl. unfold songs_table, artists_table, users_table, distinct.
  split_and!; (apply NoDup_Permutation; [apply NoDup_remove_dups..|]);
    intros r; rewrite !elem_of_remove_dups, !list_elem_of_fmap;
    split; intros (x & ? & ?); exists x; (split; [done|]);
    first [by apply Hc | by apply Hl].
Qed.

(** The catalog read twice over, and the log in another order. *)
Lemma tables_of_same_records_witness :
  (∀ c, c ∈ [face_the_ashes; face_the_ashes_live; face_the_ashes]
      ↔ c ∈ [face_the_ashes_live; face_the_ashes]) ∧
  (∀ a, a ∈ [play_15; home_15; play_15] ↔ a ∈ [home_15; play_15]) ∧
  songs_table [face_the_ashes; face_the_ashes_live; face_the_ashes]
    ≡ₚ songs_table [face_the_ashes_live; face_the_ashes] ∧
  artists_table [face_the_ashes; face_the_ashes_live; face_the_ashes]
    ≡ₚ artists_table [face_the_ashes_live; face_the_ashes] ∧
  users_table [play_15; home_15; play_15] ≡ₚ users_table [home_15; play_15].
Proof.
  assert (∀ c, c ∈ [face_the_ashes; face_the_ashes_live; face_the_ashes]
            ↔ c ∈ [face_the_ashes_live; face_the_ashes]) as Hc.
  { intros c. rewrite !elem_of_cons, !elem_of_nil. tauto. }
  assert (∀ a, a ∈ [play_15; home_15; play_15] ↔ a ∈ [home_15; play_15])
    as Hl.
  { intros a. rewrite !elem_of_cons, !elem_of_nil. tauto. }
  split; [exact Hc|]. split; [exact Hl|].
  exact (tables_of_same_records _ _ _ _ Hc Hl).
Defined.

(** ** process_log_data at any locations *)

Lemma with_ts_datetime_cases tz a :
  (∃ ts, LogData.ts a = Some ts ∧
     (datetime_min ≤ ts `div` 1000 + tz ≤ datetime_max)%Z ∧
     with_ts_datetime tz a
       = Ok (Event.mk a (ts `div` 1000) (ts `div` 1000))) ∨
  (LogData.ts a = None ∧ with_ts_datetime tz a = Err TypeError) ∨
  (∃ ts, LogData.ts a = Some ts ∧
     ¬ (datetime_min ≤ ts `div` 1000 + tz ≤ datetime_max)%Z ∧
     with_ts_datetime tz a = Err ValueError).
Proof.
  unfold with_ts_datetime, get_timestamp, get_datetime, fromtimestamp.
  destruct (LogData.ts a) as [ts|]; simpl; [|by right; left].
  case_bool_decide as Hr; simpl.
  - left. exists ts. split; [done|]. split; [done|].
    unfold toInternal. do 2 f_equal. lia.
  - right; right. by exists ts.
Qed.

Lemma with_ts_datetime_good tz a :
  good_ts tz a ↔ ∃ e, with_ts_datetime tz a = Ok e.
Proof.
  unfold good_ts.
  destruct (with_ts_datetime_cases tz a)
    as [(ts & Hts & Hr & ->)|[(Hts & ->)|(ts & Hts & Hr & ->)]].
  - split; eauto.
  - split; [intros (ts & ? & _); congruence | by intros (? & ?)].
  - split; [intros (ts' & ? & ?); by simplify_eq | by intros (? & ?)].
Qed.


Lemma mapM_Err {A B} (f : A → result B) (l : list A) x :
  x ∈ l → (∀ y, f x ≠ Ok y) →
  ∃ e x', mapM f l = Err e ∧ x' ∈ l ∧ f x' = Err e.
Proof.
  induction l as [|z l IH]; intros Hx Hbad; [by apply elem_of_nil in Hx|].
  simpl. unfold mbind, result_bind at 1.
  destruct (f z) as [y|e] eqn:Hz.
  - apply elem_of_cons in Hx as [->|Hx]; [by destruct (Hbad y)|].
    destruct (IH Hx Hbad) as (e & x' & -> & ? & ?). simpl.
    exists e, x'. split_and!; [done| |done]. by apply list_elem_of_further.
  - exists e, z. split_and!; [done| |done]. apply list_elem_of_here.
Qed.

(** Every way process_log_data can go, at any two locations. *)
Lemma process_log_data_cases spark inp out w :
  process_log_data spark inp out w =
    match files w !! path_join inp "log_data" ≫= log_data_schema with
    | None => (w, Err (AnalysisException (path_join inp "log_data")))
    | Some log =>
        let fs1 :=
          <[path_join out "users" := UsersT (users_table (next_song log))]>
            (files w) in
        let tr1 :=
          trace w ++ [Read (path_join inp "log_data");
                      Write (path_join out "users") []] in
        match mapM (with_ts_datetime (timeZone spark)) (next_song log) with
        | Err e => (World fs1 tr1, Err e)
        | Ok df =>
            let fs2 :=
              <[path_join out "time" := TimeT (time_table (timeZone spark) df)]>
                fs1 in
            let tr2 := tr1 ++ [Write (path_join out "time") []] in
            match files w !! path_join out "songs" ≫= songs_schema with
            | None =>
                (World fs2 tr2,
                 Err (AnalysisException (path_join out "songs")))
            | Some songs =>
                let tr3 := tr2 ++ [Read (path_join out "songs")] in
                match files w !! path_join out "artists" ≫= artists_schema with
                | None =>
                    (World fs2 tr3,
                     Err (AnalysisException (path_join out "artists")))
                | Some artists =>
                    (World
                       (<[path_join out "songplays" :=
                            SongplaysT (songplays_table spark df
                                          (join_artists songs artists))]> fs2)
                       (tr3 ++ [Read (path_join out "artists");
                                Write (path_join out "songplays")
                                  ["year"; "month"]]),
                     Ok ())
                end
            end
        end
    end.
Proof.
  unfold process_log_data.
  destruct (files w !! path_join inp "log_data" ≫= log_data_schema)
    as [log|] eqn:Hl.
  2:{ apply M_bind_Err. unfold read. by rewrite Hl. }
  erewrite M_bind_eq by (by apply read_eq).
  erewrite M_bind_eq by reflexivity.
  fold (next_song log).
  destruct (mapM _ (next_song log)) as [df|e] eqn:Hdf.
  2:{ erewrite M_bind_Err by reflexivity. simpl.
      by rewrite <- (assoc_L (++)). }
  erewrite M_bind_eq by reflexivity.
  erewrite M_bind_eq by reflexivity.
  unfold mbind at 1, M_bind at 1. unfold read at 1. simpl files.
  rewrite !(lookup_insert_ne _ _ (path_join out "songs"))
    by (by apply path_join_ne).
  destruct (files w !! path_join out "songs" ≫= songs_schema)
    as [songs|] eqn:Hs; simpl.
  2:{ by rewrite <- !(assoc_L (++)). }
  unfold mbind at 1, M_bind at 1. unfold read at 1. simpl files.
  rewrite !(lookup_insert_ne _ _ (path_join out "artists"))
    by (by apply path_join_ne).
  destruct (files w !! path_join out "artists" ≫= artists_schema)
    as [artists|] eqn:Ha; simpl.
  2:{ by rewrite <- !(assoc_L (++)). }
  unfold write. simpl. by rewrite <- !(assoc_L (++)).
Qed.

Lemma bad_ts_error tz (l : list LogData.t) a :
  a ∈ l → ¬ good_ts tz a →
  ∃ e, (e = TypeError ∨ e = ValueError) ∧
    mapM (with_ts_datetime tz) l = Err e.
Proof.
  intros Ha Hbad.
  destruct (mapM_Err (with_ts_datetime tz) l a Ha) as (e & x & He & _ & Hx).
  { intros y Hy. apply Hbad, with_ts_datetime_good. eauto. }
  exists e. split; [|done].
  destruct (with_ts_datetime_cases tz x)
    as [(ts & _ & _ & Hok)|[(_ & Hty)|(ts & _ & _ & Hval)]];
    rewrite Hx in *; simplify_eq; auto.
Qed.

(** A retained record whose ts is NULL, or whose start_time falls outside
    the years 1 to 9999 on the local clock, makes process_log_data raise
    TypeError or ValueError; by then it has read the log and written users,
    and it has written nothing else: time and songplays are not touched,
    songs and artists are not read. *)
Theorem bad_timestamp_aborts_after_users spark inp out w log a :
  files w !! path_join inp "log_data" = Some (LogDataT log) →
  a ∈ log → LogData.page a = Some "NextSong" →
  ¬ good_ts (timeZone spark) a →
  ∃ e, (e = TypeError ∨ e = ValueError) ∧
    process_log_data spark inp out w =
      (World
         (<[path_join out "users" := UsersT (users_table (next_song log))]>
            (files w))
         (trace w ++ [Read (path_join inp "log_data");
                      Write (path_join out "users") []]),
       Err e).
Proof.
  intros Hl%log_data_schema_Some Ha Hp Hbad.
  destruct (bad_ts_error (timeZone spark) (next_song log) a)
    as (e & He & Hdf); [by apply list_elem_of_filter|done|].
  exists e. split; [done|].
  by rewrite process_log_data_cases, Hl, Hdf.
Qed.

(** The play without a ts, in a log that also has a good play. *)
Lemma bad_timestamp_aborts_after_users_witness :
  files lost_ts !! path_join input_data "log_data"
    = Some (LogDataT [home_no_ts; play_15; play_no_ts]) ∧
  play_no_ts ∈ [home_no_ts; play_15; play_no_ts] ∧
  LogData.page play_no_ts = Some "NextSong" ∧
  ¬ good_ts (timeZone utc) play_no_ts ∧
  ∃ e, (e = TypeError ∨ e = ValueError) ∧
    process_log_data utc input_data output_data lost_ts =
      (World
         (<[path_join output_data "users" :=
              UsersT (users_table
                        (next_song [home_no_ts; play_15; play_no_ts]))]>
            (files lost_ts))
         (trace lost_ts ++ [Read (path_join input_data "log_data");
                            Write (path_join output_data "users") []]),
       Err e).
Proof.
  assert (files lost_ts !! path_join input_data "log_data"
          = Some (LogDataT [home_no_ts; play_15; play_no_ts])) as Hl
    by reflexivity.
  assert (play_no_ts ∈ [home_no_ts; play_15; play_no_ts]) as Ha
    by (apply (bool_decide_unpack _); vm_compute; exact I).
  assert (LogData.page play_no_ts = Some "NextSong") as Hp by reflexivity.
  assert (¬ good_ts (timeZone utc) play_no_ts) as Hbad
    by (intros (ts & Hts & _); discriminate Hts).
  split; [exact Hl|]. split; [exact Ha|]. split; [exact Hp|].
  split; [exact Hbad|].
  exact (bad_timestamp_aborts_after_users utc input_data output_data lost_ts
           _ play_no_ts Hl Ha Hp Hbad).
Defined.



(** ** main: when it succeeds and how it fails *)

Lemma process_song_data_cases spark inp out w :
  process_song_data spark inp out w =
    match files w !! path_join inp "song_data" ≫= song_data_schema with
    | None => (w, Err (AnalysisException (path_join inp "song_data")))
    | Some catalog =>
        (World
           (<[path_join out "artists" := ArtistsT (artists_table catalog)]>
            (<[path_join out "songs" := SongsT (songs_table catalog)]>
               (files w)))
           (trace w ++ [Read (path_join inp "song_data");
                        Write (path_join out "songs") ["year"; "artist_id"];
                        Write (path_join out "artists") []]),
         Ok ())
    end.
Proof.
  unfold process_song_data.
  destruct (files w !! path_join inp "song_data" ≫= song_data_schema)
    as [catalog|] eqn:Hc.
  - erewrite M_bind_eq by (by apply read_eq).
    erewrite M_bind_eq by reflexivity.
    unfold write. simpl. by rewrite <- !(assoc_L (++)).
  - apply M_bind_Err. unfold read. by rewrite Hc.
Qed.

Lemma main_cases spark w :
  main spark w =
    match files w !! path_join input_data "song_data" ≫= song_data_schema with
    | None => (w, Err (AnalysisException (path_join input_data "song_data")))
    | Some catalog =>
        let fs1 := song_data_outputs catalog (files w) in
        match files w !! path_join input_data "log_data" ≫= log_data_schema
        with
        | None =>
            (World fs1 (trace w ++ song_data_trace),
             Err (AnalysisException (path_join input_data "log_data")))
        | Some log =>
            match mapM (with_ts_datetime (timeZone spark)) (next_song log)
            with
            | Err e =>
                (World
                   (<[path_join output_data "users" :=
                        UsersT (users_table (next_song log))]> fs1)
                   (trace w ++ song_data_trace
                    ++ [Read (path_join input_data "log_data");
                        Write (path_join output_data "users") []]),
                 Err e)
            | Ok df =>
                (World (outputs spark catalog log df (files w))
                   (trace w ++ song_data_trace ++ log_data_trace),
                 Ok ())
            end
        end
    end.
Proof.
  unfold main. pose proof (process_song_data_cases spark input_data
                             output_data w) as Hs.
  destruct (files w !! path_join input_data "song_data" ≫= song_data_schema)
    as [catalog|] eqn:Hc.
  2:{ by apply M_bind_Err. }
  erewrite M_bind_eq by exact Hs.
  rewrite process_log_data_cases. simpl files. simpl trace.
  rewrite !(lookup_insert_ne _ _ (path_join input_data "log_data")) by done.
  destruct (files w !! path_join input_data "log_data" ≫= log_data_schema)
    as [log|]; [|done].
  destruct (mapM _ (next_song log)) as [df|e].
  2:{ simpl. unfold song_data_outputs, song_data_trace.
      by rewrite <- !(assoc_L (++)). }
  rewrite lookup_insert_ne by done. rewrite lookup_insert_eq. simpl.
  rewrite lookup_insert_eq. simpl.
  unfold outputs, log_data_outputs, song_data_outputs, song_data_trace,
    log_data_trace. by rewrite <- !(assoc_L (++)).
Qed.





Lemma outputs_lookup_other spark catalog log df (fs : gmap string table) p :
  p ∉ [path_join output_data "songs"; path_join output_data "artists";
       path_join output_data "users"; path_join output_data "time";
       path_join output_data "songplays"] →
  outputs spark catalog log df fs !! p = fs !! p.
Proof.
  intros Hp. unfold outputs, log_data_outputs, song_data_outputs.
  rewrite !lookup_insert_ne; [done|..];
    intros <-; apply Hp; rewrite !elem_of_cons; tauto.
Qed.

(** Whether it succeeds or fails, main changes storage at the five output
    paths only; the two inputs, and any file elsewhere, are as before. *)
Theorem main_touches_outputs_only spark w w' res :
  main spark w = (w', res) →
  (∀ p,
     p ∉ [path_join output_data "songs"; path_join output_data "artists";
          path_join output_data "users"; path_join output_data "time";
          path_join output_data "songplays"] →
     files w' !! p = files w !! p) ∧
  catalog_of w' = catalog_of w ∧
  log_of w' = log_of w.
Proof.
  intros Hrun.
  assert (∀ p,
     p ∉ [path_join output_data "songs"; path_join output_data "artists";
          path_join output_data "users"; path_join output_data "time";
          path_join output_data "songplays"] →
     files w' !! p = files w !! p) as Hframe.
  { intros p Hp. rewrite main_cases in Hrun.
    destruct (files w !! path_join input_data "song_data"
                ≫= song_data_schema) as [catalog|];
      [|by injection Hrun as <- _].
    simpl in Hrun.
    destruct (files w !! path_join input_data "log_data" ≫= log_data_schema)
      as [log|].
    2:{ injection Hrun as <- _. simpl. unfold song_data_outputs.
        rewrite !lookup_insert_ne; [done|..];
          intros <-; apply Hp; rewrite !elem_of_cons; tauto. }
    destruct (mapM _ (next_song log)) as [df|e'].
    - injection Hrun as <- _. simpl. by apply outputs_lookup_other.
    - injection Hrun as <- _. simpl. unfold song_data_outputs.
      rewrite !lookup_insert_ne; [done|..];
        intros <-; apply Hp; rewrite !elem_of_cons; tauto. }
  split; [done|].
  unfold catalog_of, log_of, rows_at.
  rewrite !Hframe; [done|..];
    rewrite !elem_of_cons, elem_of_nil; intros H;
    repeat destruct H as [H|H]; done.
Qed.

(** The scenario, with its end. *)
Lemma main_touches_outputs_only_witness :
  main utc scenario = (scenario_end, Ok ()) ∧
  (∀ p,
     p ∉ [path_join output_data "songs"; path_join output_data "artists";
          path_join output_data "users"; path_join output_data "time";
          path_join output_data "songplays"] →
     files scenario_end !! p = files scenario !! p) ∧
  catalog_of scenario_end = catalog_of scenario ∧
  log_of scenario_end = log_of scenario.
Proof.
  assert (main utc scenario = (scenario_end, Ok ())) as Hrun
    by (vm_compute; reflexivity).
  split; [exact Hrun|].
  exact (main_touches_outputs_only utc scenario scenario_end (Ok ()) Hrun).
Defined.




(** ** The rows of users and songplays *)


(** In a successful run the users table holds exactly the projections of
    the NextSong records, each once, so no more rows than the log has
    records; user_id is no key of it: two NextSong records that differ in
    level, be they of one user, give two rows. *)
Theorem users_rows_exact spark w w' :
  main spark w = (w', Ok ()) →
  (∀ u, u ∈ users_of w' ↔
     ∃ a, a ∈ log_of w ∧ LogData.page a = Some "NextSong" ∧
       u = select_users a) ∧
  NoDup (users_of w') ∧
  length (users_of w') ≤ length (log_of w) ∧
  (∀ a1 a2,
     a1 ∈ log_of w → LogData.page a1 = Some "NextSong" →
     a2 ∈ log_of w → LogData.page a2 = Some "NextSong" →
     LogData.level a1 ≠ LogData.level a2 →
     ∃ u1 u2, u1 ∈ users_of w' ∧ u2 ∈ users_of w' ∧ u1 ≠ u2 ∧
       Users.user_id u1 = LogData.userId a1 ∧
       Users.user_id u2 = LogData.userId a2).
Proof.
  intros (df & _ & _ & _ & -> & _)%main_tables.
  assert (∀ u, u ∈ users_table (next_song (log_of w)) ↔
            ∃ a, a ∈ log_of w ∧ LogData.page a = Some "NextSong" ∧
              u = select_users a) as Hiff.
  { intros u. unfold users_table, distinct, next_song.
    rewrite elem_of_remove_dups, list_elem_of_fmap. split.
    - intros (a & -> & [Hp Ha]%list_elem_of_filter). eauto.
    - intros (a & Ha & Hp & ->). exists a. split; [done|].
      by apply list_elem_of_filter. }
  split_and!; [done| | |].
  - apply NoDup_remove_dups.
  - unfold users_table. etrans; [apply length_distinct|].
    rewrite length_fmap. apply length_filter.
  - intros a1 a2 Ha1 Hp1 Ha2 Hp2 Hne.
    exists (select_users a1), (select_users a2). split_and!; [| | |done..].
    + apply Hiff. eauto.
    + apply Hiff. eauto.
    + intros Heq. apply Hne. by injection Heq.
Qed.

(** The user of the scenario on the free and on the paid tier. *)
Lemma users_rows_exact_witness :
  main utc two_tiers = (two_tiers_end, Ok ()) ∧
  length (users_of two_tiers_end) = 2 ∧
  (∀ u, u ∈ users_of two_tiers_end ↔
     ∃ a, a ∈ log_of two_tiers ∧ LogData.page a = Some "NextSong" ∧
       u = select_users a) ∧
  NoDup (users_of two_tiers_end) ∧
  length (users_of two_tiers_end) ≤ length (log_of two_tiers) ∧
  (∀ a1 a2,
     a1 ∈ log_of two_tiers → LogData.page a1 = Some "NextSong" →
     a2 ∈ log_of two_tiers → LogData.page a2 = Some "NextSong" →
     LogData.level a1 ≠ LogData.level a2 →
     ∃ u1 u2, u1 ∈ users_of two_tiers_end ∧ u2 ∈ users_of two_tiers_end ∧
       u1 ≠ u2 ∧
       Users.user_id u1 = LogData.userId a1 ∧
       Users.user_id u2 = LogData.userId a2).
Proof.
  assert (main utc two_tiers = (two_tiers_end, Ok ())) as Hrun
    by (vm_compute; reflexivity).
  split; [exact Hrun|]. split; [vm_compute; reflexivity|].
  exact (users_rows_exact utc two_tiers two_tiers_end Hrun).
Defined.







(** ** The partition layout and the ids *)




(** Within the engine's limits an id can be taken apart again: its bits
    above the 33rd are the partition index, its low 33 bits are the row
    number, and it is not negative; so two rows have the same id only if
    they are the same row of the same partition. *)
Theorem monotonically_increasing_id_decode p i :
  (Z.of_nat p < 2 ^ 30)%Z → (Z.of_nat i < 2 ^ 33)%Z →
  Z.shiftr (monotonically_increasing_id p i) 33 = Z.of_nat p ∧
  Z.land (monotonically_increasing_id p i) (Z.ones 33) = Z.of_nat i ∧
  (0 ≤ monotonically_increasing_id p i < 2 ^ 63)%Z ∧
  (∀ p' i', (Z.of_nat p' < 2 ^ 30)%Z → (Z.of_nat i' < 2 ^ 33)%Z →
     monotonically_increasing_id p' i' = monotonically_increasing_id p i →
     p' = p ∧ i' = i).
Proof.
  intros Hp Hi.
  assert (∀ q j, (Z.of_nat q < 2 ^ 30)%Z → (Z.of_nat j < 2 ^ 33)%Z →
            Z.shiftr (monotonically_increasing_id q j) 33 = Z.of_nat q ∧
            Z.land (monotonically_increasing_id q j) (Z.ones 33)
              = Z.of_nat j) as Hdec.
  { intros q j Hq Hj. rewrite monotonically_increasing_id_nowrap by done.
    rewrite Z.shiftr_div_pow2, Z.land_ones by lia. split.
    - rewrite Z.add_comm, Z.div_add by lia. rewrite Z.div_small; lia.
    - rewrite Z.add_comm, Z.mod_add by lia. apply Z.mod_small. lia. }
  destruct (Hdec p i Hp Hi) as [Hsh Hland]. split_and!; [done|done| | |].
  - rewrite monotonically_increasing_id_nowrap by done. lia.
  - rewrite monotonically_increasing_id_nowrap by done. lia.
  - intros p' i' Hp' Hi' Heq.
    destruct (Hdec p' i' Hp' Hi') as [Hsh' Hland'].
    rewrite Heq, Hsh in Hsh'. rewrite Heq, Hland in Hland'. lia.
Qed.

(** The sixth row of the third partition. *)
Lemma monotonically_increasing_id_decode_witness :
  (Z.of_nat 2 < 2 ^ 30)%Z ∧ (Z.of_nat 5 < 2 ^ 33)%Z ∧
  monotonically_increasing_id 2 5 = 17179869189%Z ∧
  Z.shiftr (monotonically_increasing_id 2 5) 33 = Z.of_nat 2 ∧
  Z.land (monotonically_increasing_id 2 5) (Z.ones 33) = Z.of_nat 5 ∧
  (0 ≤ monotonically_increasing_id 2 5 < 2 ^ 63)%Z ∧
  (∀ p' i', (Z.of_nat p' < 2 ^ 30)%Z → (Z.of_nat i' < 2 ^ 33)%Z →
     monotonically_increasing_id p' i' = monotonically_increasing_id 2 5 →
     p' = 2 ∧ i' = 5).
Proof.
  assert (Z.of_nat 2 < 2 ^ 30)%Z as Hp by (simpl; lia).
  assert (Z.of_nat 5 < 2 ^ 33)%Z as Hi by (simpl; lia).
  split; [exact Hp|]. split; [exact Hi|]. split; [vm_compute; reflexivity|].
  exact (monotonically_increasing_id_decode 2 5 Hp Hi).
Defined.

(** ** The calendar columns *)

Ltac split_ifs :=
  repeat match goal with
  | |- context [if ?b then _ else _] =>
      match b with
      | Z.ltb ?x ?y => destruct (Z.ltb_spec x y)
      | Z.leb ?x ?y => destruct (Z.leb_spec x y)
      end
  end.

Lemma civil_from_days_ranges z :
  (1 ≤ (civil_from_days z).1.2 ≤ 12)%Z ∧ (1 ≤ (civil_from_days z).2 ≤ 31)%Z.
Proof.
  unfold civil_from_days. cbv zeta. cbn [fst snd]. split_ifs.
  all: Z.div_mod_to_equations; lia.
Qed.

(** Day, month, year and back. *)
Lemma days_from_civil_from_days z :
  days_from_civil (civil_from_days z).1.1 (civil_from_days z).1.2
    (civil_from_days z).2 = z.
Proof.
  unfold civil_from_days, days_from_civil. cbv zeta. cbn [fst snd].
  split_ifs.
  all: Z.div_mod_to_equations; lia.
Qed.

(** A date is at most 365 days after the first of January of its year. *)
Lemma days_from_civil_in_year y m d :
  (1 ≤ m ≤ 12)%Z → (1 ≤ d ≤ 31)%Z →
  (0 ≤ days_from_civil y m d - days_from_civil y 1 1 ≤ 365)%Z.
Proof.
  intros Hm Hd. unfold days_from_civil. cbv zeta.
  change (1 <=? 2)%Z with true. change (2 <? 1)%Z with false. cbv iota.
  split_ifs; try lia.
  all: Z.div_mod_to_equations; lia.
Qed.

Lemma days_from_civil_jan1_late y :
  (10000 ≤ y)%Z → (2932897 ≤ days_from_civil y 1 1)%Z.
Proof.
  intros Hy. unfold days_from_civil. cbv zeta.
  change (1 <=? 2)%Z with true. change (2 <? 1)%Z with false. cbv iota.
  Z.div_mod_to_equations. lia.
Qed.

Lemma days_from_civil_jan1_early y :
  (y ≤ 0)%Z → (days_from_civil y 1 1 ≤ -719528)%Z.
Proof.
  intros Hy. unfold days_from_civil. cbv zeta.
  change (1 <=? 2)%Z with true. change (2 <? 1)%Z with false. cbv iota.
  Z.div_mod_to_equations. lia.
Qed.

Lemma civil_from_days_year z :
  (-719162 ≤ z ≤ 2932896)%Z → (1 ≤ (civil_from_days z).1.1 ≤ 9999)%Z.
Proof.
  intros Hz.
  destruct (civil_from_days_ranges z) as [Hm Hd].
  pose proof (days_from_civil_in_year (civil_from_days z).1.1 _ _ Hm Hd) as H.
  rewrite days_from_civil_from_days in H.
  pose proof (days_from_civil_jan1_late (civil_from_days z).1.1).
  pose proof (days_from_civil_jan1_early (civil_from_days z).1.1).
  lia.
Qed.

Lemma weekofyear_of_range w : (1 ≤ weekofyear_of w ≤ 53)%Z.
Proof.
  unfold weekofyear_of. cbv zeta.
  set (t := (days_of w - dow_of w + 3)%Z).
  destruct (civil_from_days_ranges t) as [Hm Hd].
  pose proof (days_from_civil_in_year (civil_from_days t).1.1 _ _ Hm Hd) as H.
  rewrite days_from_civil_from_days in H.
  Z.div_mod_to_equations. lia.
Qed.

Lemma weekday_of_names w :
  weekday_of w ∈ ["Mon"; "Tue"; "Wed"; "Thu"; "Fri"; "Sat"; "Sun"].
Proof.
  unfold weekday_of, dow_of.
  assert (0 ≤ (days_of w + 3) `mod` 7 < 7)%Z as Hr
    by (apply Z.mod_pos_bound; lia).
  destruct ((days_of w + 3) `mod` 7)%Z as [|q|q]; simpl.
  - rewrite !elem_of_cons. tauto.
  - do 6 (destruct q as [q|q|]; simpl; try lia;
          try (rewrite !elem_of_cons; tauto)).
  - lia.
Qed.

(** Every row of the time table of a successful run is a calendar reading:
    hour from 0 to 23, day from 1 to 31, week from 1 to 53, month from 1 to
    12, weekday one of the seven abbreviations, and year from 1 to 9999,
    the years Python's datetime can hold. *)
Theorem time_rows_in_range spark w w' t :
  main spark w = (w', Ok ()) →
  t ∈ time_of w' →
  (0 ≤ Time.hour t ≤ 23)%Z ∧
  (1 ≤ Time.day t ≤ 31)%Z ∧
  (1 ≤ Time.week t ≤ 53)%Z ∧
  (1 ≤ Time.month t ≤ 12)%Z ∧
  (1 ≤ Time.year t ≤ 9999)%Z ∧
  Time.weekday t ∈ ["Mon"; "Tue"; "Wed"; "Thu"; "Fri"; "Sat"; "Sun"].
Proof.
  intros (df & Hdf & _ & _ & _ & -> & _)%main_tables
    (e & He & ->)%elem_of_time_table.
  destruct (mapM_Ok_elem_of _ _ _ _ Hdf He) as (a & _ & Ha).
  apply with_ts_datetime_Ok in Ha as (ts & _ & -> & Hr).
  unfold select_time, hour, dayofmonth, weekofyear, month, year,
    date_format_E. simpl.
  set (wall := (ts `div` 1000 + timeZone spark)%Z) in *.
  split_and!.
  - unfold hour_of. Z.div_mod_to_equations. lia.
  - unfold hour_of. Z.div_mod_to_equations. lia.
  - apply civil_from_days_ranges.
  - apply civil_from_days_ranges.
  - apply weekofyear_of_range.
  - apply weekofyear_of_range.
  - apply civil_from_days_ranges.
  - apply civil_from_days_ranges.
  - apply civil_from_days_year. unfold days_of, datetime_min, datetime_max in *.
    Z.div_mod_to_equations. lia.
  - apply civil_from_days_year. unfold days_of, datetime_min, datetime_max in *.
    Z.div_mod_to_equations. lia.
  - apply weekday_of_names.
Qed.

(** The time row of the play before the epoch, on a host east of UTC. *)
Lemma time_rows_in_range_witness :
  main cet before_epoch = ((main cet before_epoch).1, Ok ()) ∧
  Time.mk (-2) 0 1 1 1 1970 "Thu" ∈ time_of (main cet before_epoch).1 ∧
  (0 ≤ 0 ≤ 23)%Z ∧ (1 ≤ 1 ≤ 31)%Z ∧ (1 ≤ 1 ≤ 53)%Z ∧ (1 ≤ 1 ≤ 12)%Z ∧
  (1 ≤ 1970 ≤ 9999)%Z ∧
  "Thu" ∈ ["Mon"; "Tue"; "Wed"; "Thu"; "Fri"; "Sat"; "Sun"].
Proof.
  assert (main cet before_epoch = ((main cet before_epoch).1, Ok ()))
    as Hrun by (vm_compute; reflexivity).
  assert (Time.mk (-2) 0 1 1 1 1970 "Thu" ∈ time_of (main cet before_epoch).1)
    as Hrow by (apply (bool_decide_unpack _); vm_compute; exact I).
  split; [exact Hrun|]. split; [exact Hrow|].
  exact (time_rows_in_range cet before_epoch _ _ Hrun Hrow).
Defined.

(** ** The size of songplays *)






(** ** The columns of a songplays row *)

(** Every songplays row of a successful run has an artist_id that is not
    NULL (a NULL artist_id joins nothing), and its month and year columns,
    by which the table is partitioned, are the local month and year of its
    start_time, a month from 1 to 12 and a year from 1 to 9999; they agree
    with the month and year of the time row of the same start_time. *)
Theorem songplays_columns spark w w' r :
  main spark w = (w', Ok ()) →
  r ∈ songplays_of w' →
  is_Some (Songplays.artist_id r) ∧
  Songplays.month r = month_of (Songplays.start_time r + timeZone spark) ∧
  Songplays.year r = year_of (Songplays.start_time r + timeZone spark) ∧
  (1 ≤ Songplays.month r ≤ 12)%Z ∧
  (1 ≤ Songplays.year r ≤ 9999)%Z ∧
  (∀ t, t ∈ time_of w' → Time.start_time t = Songplays.start_time r →
     Time.month t = Songplays.month r ∧ Time.year t = Songplays.year r).
Proof.
  intros (df & Hdf & _ & _ & _ & Htime & ->)%main_tables Hr.
  unfold songplays_table in Hr.
  apply elem_of_with_ids in Hr as ([e sa] & id & Hj & ->).
  rewrite concat_partitions in Hj.
  apply elem_of_join_conditions in Hj as (He & Hsa & _).
  apply elem_of_join_artists in Hsa as (s & ar & _ & _ & Hid & ->).
  destruct (mapM_Ok_elem_of _ _ _ _ Hdf He) as (a & _ & Ha).
  apply with_ts_datetime_Ok in Ha as (ts & _ & -> & Hr).
  unfold month, year. simpl.
  apply sql_eqb_true in Hid as (i & Hi & _).
  split; [by rewrite Hi|]. split; [done|]. split; [done|].
  split; [apply civil_from_days_ranges|]. split.
  - apply civil_from_days_year.
    unfold days_of, datetime_min, datetime_max in *.
    Z.div_mod_to_equations. lia.
  - intros t Ht Hst. rewrite Htime in Ht.
    apply elem_of_time_table in Ht as (e' & He' & ->).
    destruct (mapM_Ok_elem_of _ _ _ _ Hdf He') as (a' & _ & Ha').
    apply with_ts_datetime_Ok in Ha' as (ts' & _ & -> & _).
    simpl in *. unfold month, year. by rewrite Hst.
Qed.

(** The songplays row of the scenario. *)
Lemma songplays_columns_witness :
  main utc scenario = (scenario_end, Ok ()) ∧
  scenario_play ∈ songplays_of scenario_end ∧
  is_Some (Songplays.artist_id scenario_play) ∧
  Songplays.month scenario_play
    = month_of (Songplays.start_time scenario_play + timeZone utc) ∧
  Songplays.year scenario_play
    = year_of (Songplays.start_time scenario_play + timeZone utc) ∧
  (1 ≤ Songplays.month scenario_play ≤ 12)%Z ∧
  (1 ≤ Songplays.year scenario_play ≤ 9999)%Z ∧
  (∀ t, t ∈ time_of scenario_end →
     Time.start_time t = Songplays.start_time scenario_play →
     Time.month t = Songplays.month scenario_play ∧
     Time.year t = Songplays.year scenario_play).
Proof.
  assert (main utc scenario = (scenario_end, Ok ())) as Hrun
    by (vm_compute; reflexivity).
  assert (scenario_play ∈ songplays_of scenario_end) as Hrow
    by (apply (bool_decide_unpack _); vm_compute; exact I).
  split; [exact Hrun|]. split; [exact Hrow|].
  exact (songplays_columns utc scenario scenario_end scenario_play
           Hrun Hrow).
Defined.
